(** * Clinic outcomes dashboard: label layout, data provider, chart lifecycle

    A shallow embedding of the Angular component [AppComponent]
    (app.component.ts) and of [ClinicReportsService]
    (clinic-reports.service.ts), with the properties the specification
    states about them.

    Conventions of the embedding:
    - a JavaScript [number] is a value of [num]: a rational, one of the two
      infinities, or NaN.  The operations [num_add], [num_mul] and [num_div]
      give the exact result on finite numbers: they carry what is said about
      texts, about the order of anchors and about the shape of a drawing,
      none of which depends on rounding.  The operations of module [Binary64]
      round the result to the nearest binary64 number, as the language does:
      what is said about the size of a rounding error is said with them.  The
      results IEEE-754 fixes for the special values (x/0, 0/0, Infinity -
      Infinity, NaN propagation) are the ones JavaScript gives; the sign of
      zero is not modelled;
    - what the JavaScript runtime computes and the source does not
      ([Math.PI], [Math.cos], [Math.sin], the decimal rendering of a number
      that is not an integer) is a field of the class [JsRuntime];
    - the 2D canvas context is a record that is threaded through the drawing
      code; what was drawn is kept in its [drawn] log;
    - RxJS observables are functions from the environment (network and clock)
      to what a subscriber receives. *)

From Stdlib Require Import ZArith QArith Qround Qabs Qpower Qcanon Lqa.
From Stdlib Require Import String Ascii List Lia.
From stdpp Require Import base numbers strings list sorting gmap pretty.

Open Scope string_scope.
Open Scope list_scope.

#[local] Set Warnings "-clear-no-such-hyp".

(** ** JavaScript numbers *)

Inductive num : Type :=
  | Fin (q : Qc)
  | PosInf
  | NegInf
  | NaN.

Declare Scope num_scope.
Delimit Scope num_scope with num.
Bind Scope num_scope with num.

#[global] Instance num_eq_dec : EqDecision num.
Proof. solve_decision. Defined.

(** An integer literal, and a decimal literal [n/d] such as 0.3 = 3/10. *)
Definition lit (z : Z) : num := Fin (Q2Qc (inject_Z z)).
Definition decimal (n : Z) (d : positive) : num := Fin (Q2Qc (n # d)).

Definition isFinite (x : num) : bool :=
  match x with Fin _ => true | _ => false end.

Definition isNaN (x : num) : bool :=
  match x with NaN => true | _ => false end.

Definition num_neg (x : num) : num :=
  match x with
  | Fin q => Fin (- q)
  | PosInf => NegInf
  | NegInf => PosInf
  | NaN => NaN
  end.

Definition num_add (x y : num) : num :=
  match x, y with
  | NaN, _ | _, NaN => NaN
  | PosInf, NegInf | NegInf, PosInf => NaN
  | PosInf, _ | _, PosInf => PosInf
  | NegInf, _ | _, NegInf => NegInf
  | Fin a, Fin b => Fin (a + b)
  end.

Definition num_sub (x y : num) : num := num_add x (num_neg y).

(** The infinity of the sign of [q], NaN for zero: Infinity * q. *)
Definition inf_times (pos : bool) (q : Qc) : num :=
  match (q ?= 0)%Qc with
  | Eq => NaN
  | Gt => if pos then PosInf else NegInf
  | Lt => if pos then NegInf else PosInf
  end.

Definition num_mul (x y : num) : num :=
  match x, y with
  | NaN, _ | _, NaN => NaN
  | Fin a, Fin b => Fin (a * b)
  | PosInf, Fin q | Fin q, PosInf => inf_times true q
  | NegInf, Fin q | Fin q, NegInf => inf_times false q
  | PosInf, PosInf | NegInf, NegInf => PosInf
  | PosInf, NegInf | NegInf, PosInf => NegInf
  end.

(** Division: a non-zero number over zero is an infinity, 0/0 and
    Infinity/Infinity are NaN, a finite number over an infinity is zero. *)
Definition num_div (x y : num) : num :=
  match x, y with
  | NaN, _ | _, NaN => NaN
  | Fin a, Fin b =>
      match (b ?= 0)%Qc with
      | Eq => inf_times true a
      | _ => Fin (a / b)
      end
  | Fin _, (PosInf | NegInf) => Fin 0
  | PosInf, Fin q => match (q ?= 0)%Qc with Lt => NegInf | _ => PosInf end
  | NegInf, Fin q => match (q ?= 0)%Qc with Lt => PosInf | _ => NegInf end
  | (PosInf | NegInf), (PosInf | NegInf) => NaN
  end.

Notation "x + y" := (num_add x y) : num_scope.
Notation "x - y" := (num_sub x y) : num_scope.
Notation "x * y" := (num_mul x y) : num_scope.
Notation "x / y" := (num_div x y) : num_scope.
Notation "- x" := (num_neg x) : num_scope.

(** [x <= y] on numbers, false as soon as one side is NaN. *)
Definition num_le (x y : num) : Prop :=
  match x, y with
  | NaN, _ | _, NaN => False
  | NegInf, _ | _, PosInf => True
  | Fin a, Fin b => (a <= b)%Qc
  | PosInf, _ | _, NegInf => False
  end.

(** ** What the JavaScript runtime provides *)

(** [Math.PI], [Math.cos] and [Math.sin] on finite arguments, and the decimal
    rendering of a finite number that is not an integer below 10^21; none of
    them is part of the repository.  The non-finite cases are fixed by the
    language and are defined below. *)
Class JsRuntime : Type := {
  Math_PI : num;
  cos_finite : Qc -> Qc;
  sin_finite : Qc -> Qc;
  fraction_toString : Qc -> string
}.

Section Runtime.
Context `{JsRuntime}.

(** Math.cos(NaN) and Math.cos(+-Infinity) are NaN. *)
Definition Math_cos (x : num) : num :=
  match x with Fin q => Fin (cos_finite q) | _ => NaN end.

Definition Math_sin (x : num) : num :=
  match x with Fin q => Fin (sin_finite q) | _ => NaN end.

(** Number.prototype.toString(), as used by string concatenation and
    template literals. *)
Definition Number_toString (x : num) : string :=
  match x with
  | NaN => "NaN"
  | PosInf => "Infinity"
  | NegInf => "-Infinity"
  | Fin q =>
      let n := Qnum q in
      if decide (Qden q = 1%positive /\ (Z.abs n < 10 ^ 21)%Z)
      then pretty n
      else fraction_toString q
  end.
End Runtime.

(** A small runtime on which the model can be evaluated: PI to sixteen
    digits, cosine and sine by their Taylor polynomials of degree 22 and 23
    on the argument brought into [-PI, PI], cut to sixteen decimals, and a
    truncated decimal expansion. *)
Module EvalRuntime.

Definition pi16 : Q := 3141592653589793 # 1000000000000000.

Definition reduce (x : Q) : Q :=
  (x - inject_Z (Qfloor ((x + pi16) / (2 * pi16))) * (2 * pi16))%Q.

Fixpoint taylor (terms : nat) (k : Z) (term x2 : Q) : Q :=
  match terms with
  | O => 0
  | S n =>
      (term + taylor n (k + 2) (- term * x2 / inject_Z ((k + 1) * (k + 2))) x2)%Q
  end.

Definition cut16 (q : Q) : Qc :=
  Q2Qc (Qfloor (q * inject_Z (10 ^ 16)) # 10 ^ 16).

Definition cosQ (x : Qc) : Qc :=
  let r := Qred (reduce x) in cut16 (taylor 12 0 1 (r * r)).

Definition sinQ (x : Qc) : Qc :=
  let r := Qred (reduce x) in cut16 (taylor 12 1 r (r * r)).

Fixpoint frac_digits (fuel : nat) (r d : Z) : string :=
  match fuel with
  | O => ""
  | S f =>
      if (r =? 0)%Z then ""
      else pretty (r * 10 / d)%Z +:+ frac_digits f (r * 10 mod d)%Z d
  end.

Definition fracString (q : Qc) : string :=
  let n := Qnum q in
  let d := Z.pos (Qden q) in
  (if (n <? 0)%Z then "-" else "")
    +:+ pretty (Z.abs n / d)%Z +:+ "." +:+ frac_digits 17 (Z.abs n mod d)%Z d.

#[export] Instance runtime : JsRuntime := {|
  Math_PI := Fin (Q2Qc pi16);
  cos_finite := cosQ;
  sin_finite := sinQ;
  fraction_toString := fracString
|}.

End EvalRuntime.

(** ** clinic-reports.service.ts: the data model *)

Record TimeInRange := {
  inRange : num;
  aboveRange : num;
  belowRange : num
}.

Record Distribution := {
  optimal : num;
  suboptimal : num;
  poor : num
}.

Record Gmi := {
  average : num;
  distribution : Distribution
}.

Record ClinicData := {
  patientCount : num;
  reportingPeriod : string;
  dateRange : string;
  lastUpdated : string;
  timeInRange : TimeInRange;
  gmi : Gmi
}.

#[global] Instance TimeInRange_eq_dec : EqDecision TimeInRange.
Proof. solve_decision. Defined.
#[global] Instance Distribution_eq_dec : EqDecision Distribution.
Proof. solve_decision. Defined.
#[global] Instance Gmi_eq_dec : EqDecision Gmi.
Proof. solve_decision. Defined.
#[global] Instance ClinicData_eq_dec : EqDecision ClinicData.
Proof. solve_decision. Defined.

(** ** Observables *)

(** What [HttpClient.get] can answer: the parsed body, or an error
    notification (the transport failed, the status was not 2xx, or the body
    was not JSON). *)
Inductive HttpError :=
  | TransportError
  | StatusError (status : Z)
  | ParseError.

Inductive HttpResult :=
  | HttpOk (body : ClinicData)
  | HttpFail (error : HttpError).

(** The environment of a subscription: the network, and the clock as
    [new Date().toLocaleString()] reads it. *)
Record Env := {
  network : string -> HttpResult;
  localeNow : string
}.

Inductive Notification :=
  | Next (value : ClinicData)
  | Error (error : HttpError).

(** What a subscriber sees: the requests that went out and the notification
    that came back. *)
Record Emission := {
  requests : list string;
  outcome : Notification
}.

Definition Observable : Type := Env -> Emission.

(** The RxJS operators the service uses.  [of] is a keyword here, hence
    [of_]; its argument is evaluated when the observable is built, which is
    when the environment is read. *)
Module Rx.

(** of(value): emits [value]; no request. *)
Definition of_ (value : Env -> ClinicData) : Observable :=
  fun env => {| requests := []; outcome := Next (value env) |}.

Definition map (project : ClinicData -> ClinicData) (source : Observable)
  : Observable :=
  fun env =>
    let r := source env in
    {| requests := requests r;
       outcome := match outcome r with
                  | Next d => Next (project d)
                  | Error e => Error e
                  end |}.

(** catchError(selector): on an error, continue with the observable the
    selector returns. *)
Definition catchError (selector : HttpError -> Observable) (source : Observable)
  : Observable :=
  fun env =>
    let r := source env in
    match outcome r with
    | Next _ => r
    | Error e =>
        let r' := selector e env in
        {| requests := requests r ++ requests r'; outcome := outcome r' |}
    end.

End Rx.

(** HttpClient.get(url) *)
Definition http_get (url : string) : Observable :=
  fun env =>
    {| requests := [url];
       outcome := match network env url with
                  | HttpOk body => Next body
                  | HttpFail e => Error e
                  end |}.

(** ** clinic-reports.service.ts: ClinicReportsService *)

Section Service.
Context `{JsRuntime}.

Definition fileMap : list (num * string) :=
  [ (lit 30, "/resource/30day-results.json");
    (lit 60, "/resource/60day-results.json");
    (lit 90, "/resource/90day-results.json") ].

(** fileMap[period]: [None] is undefined. *)
Fixpoint property (m : list (num * string)) (key : num) : option string :=
  match m with
  | [] => None
  | (k, v) :: rest => if decide (k = key) then Some v else property rest key
  end.

(** !filePath *)
Definition not_truthy (v : option string) : bool :=
  match v with
  | None => true
  | Some EmptyString => true
  | Some _ => false
  end.

Definition getDefaultData (period : num) (env : Env) : ClinicData :=
  {| patientCount := lit 0;
     reportingPeriod := Number_toString period +:+ " days";
     dateRange := "No data available";
     lastUpdated := localeNow env;
     timeInRange := {| inRange := lit 0; aboveRange := lit 0; belowRange := lit 0 |};
     gmi := {| average := lit 0;
               distribution := {| optimal := lit 0; suboptimal := lit 0; poor := lit 0 |} |}
  |}.

Definition getClinicDataByPeriod (period : num) : Observable :=
  let filePath := property fileMap period in
  if not_truthy filePath then Rx.of_ (getDefaultData period)
  else
    Rx.catchError (fun error => Rx.of_ (getDefaultData period))
      (Rx.map (fun data => data) (http_get (default "" filePath))).
End Service.

(** ** The 2D canvas context *)

Record Point := { px : num; py : num }.

Inductive PathOp :=
  | MoveTo (p : Point)
  | LineTo (p : Point)
  | Arc (centre : Point) (radius startAngle endAngle : num).

Record TextStyle := {
  text_fillStyle : string;
  text_font : string;
  text_textAlign : string;
  text_textBaseline : string
}.

(** What a drawing call leaves on the canvas, with the arguments as they
    were passed and the styles in force at the call. *)
Inductive Drawn :=
  | Stroked (path : list PathOp) (style : string) (width : num)
  | Filled (path : list PathOp) (style : string)
  | Texted (text : string) (position : Point) (style : TextStyle).

Record Ctx := {
  fillStyle : string;
  strokeStyle : string;
  font : string;
  textAlign : string;
  textBaseline : string;
  lineWidth : num;
  path : list PathOp;
  drawn : list Drawn
}.

#[global] Instance Point_eq_dec : EqDecision Point.
Proof. solve_decision. Defined.
#[global] Instance PathOp_eq_dec : EqDecision PathOp.
Proof. solve_decision. Defined.
#[global] Instance TextStyle_eq_dec : EqDecision TextStyle.
Proof. solve_decision. Defined.
#[global] Instance Drawn_eq_dec : EqDecision Drawn.
Proof. solve_decision. Defined.

Definition Statement : Type := Ctx -> Ctx.

Definition set_fillStyle (v : string) : Statement := fun c =>
  {| fillStyle := v; strokeStyle := strokeStyle c; font := font c;
     textAlign := textAlign c; textBaseline := textBaseline c;
     lineWidth := lineWidth c; path := path c; drawn := drawn c |}.

Definition set_strokeStyle (v : string) : Statement := fun c =>
  {| fillStyle := fillStyle c; strokeStyle := v; font := font c;
     textAlign := textAlign c; textBaseline := textBaseline c;
     lineWidth := lineWidth c; path := path c; drawn := drawn c |}.

Definition set_font (v : string) : Statement := fun c =>
  {| fillStyle := fillStyle c; strokeStyle := strokeStyle c; font := v;
     textAlign := textAlign c; textBaseline := textBaseline c;
     lineWidth := lineWidth c; path := path c; drawn := drawn c |}.

Definition set_textAlign (v : string) : Statement := fun c =>
  {| fillStyle := fillStyle c; strokeStyle := strokeStyle c; font := font c;
     textAlign := v; textBaseline := textBaseline c;
     lineWidth := lineWidth c; path := path c; drawn := drawn c |}.

Definition set_textBaseline (v : string) : Statement := fun c =>
  {| fillStyle := fillStyle c; strokeStyle := strokeStyle c; font := font c;
     textAlign := textAlign c; textBaseline := v;
     lineWidth := lineWidth c; path := path c; drawn := drawn c |}.

Definition set_lineWidth (v : num) : Statement := fun c =>
  {| fillStyle := fillStyle c; strokeStyle := strokeStyle c; font := font c;
     textAlign := textAlign c; textBaseline := textBaseline c;
     lineWidth := v; path := path c; drawn := drawn c |}.

Definition set_path (p : list PathOp) : Statement := fun c =>
  {| fillStyle := fillStyle c; strokeStyle := strokeStyle c; font := font c;
     textAlign := textAlign c; textBaseline := textBaseline c;
     lineWidth := lineWidth c; path := p; drawn := drawn c |}.

Definition draw (d : Ctx -> Drawn) : Statement := fun c =>
  {| fillStyle := fillStyle c; strokeStyle := strokeStyle c; font := font c;
     textAlign := textAlign c; textBaseline := textBaseline c;
     lineWidth := lineWidth c; path := path c; drawn := drawn c ++ [d c] |}.

Definition beginPath : Statement := set_path [].
Definition moveTo (x y : num) : Statement := fun c =>
  set_path (path c ++ [MoveTo {| px := x; py := y |}]) c.
Definition lineTo (x y : num) : Statement := fun c =>
  set_path (path c ++ [LineTo {| px := x; py := y |}]) c.
Definition arc (x y radius startAngle endAngle : num) : Statement := fun c =>
  set_path (path c ++ [Arc {| px := x; py := y |} radius startAngle endAngle]) c.
Definition stroke : Statement :=
  draw (fun c => Stroked (path c) (strokeStyle c) (lineWidth c)).
Definition fill : Statement :=
  draw (fun c => Filled (path c) (fillStyle c)).
Definition fillText (text : string) (x y : num) : Statement :=
  draw (fun c =>
    Texted text {| px := x; py := y |}
      {| text_fillStyle := fillStyle c; text_font := font c;
         text_textAlign := textAlign c; text_textBaseline := textBaseline c |}).

(** A block of statements, run in order. *)
Definition statements (body : list Statement) : Statement :=
  fun c => fold_left (fun c s => s c) body c.

(** array.forEach((item, index) => ...) *)
Definition forEach {A} (items : list A) (callback : A -> nat -> Statement)
  : Statement :=
  statements (imap (fun index item => callback item index) items).

(** ** The labels of a drawing *)

(** The specification's LabelSpec: the text, where it is anchored, and the
    waypoints of its connector line. *)
Record LabelSpec := {
  text : string;
  anchor : Point;
  connector : list Point
}.

#[global] Instance LabelSpec_eq_dec : EqDecision LabelSpec.
Proof. solve_decision. Defined.

Definition waypoint (op : PathOp) : option Point :=
  match op with
  | MoveTo p | LineTo p => Some p
  | Arc _ _ _ _ => None
  end.

(** Every text drawn is a label.  Its connector is the line stroked since
    the previous label, when that line ends at the label's anchor; a label
    without such a line has no connector. *)
Definition connectorTo (at_ : Point) (line : list Point) : list Point :=
  if decide (last line = Some at_) then line else [].

Fixpoint labelsFrom (pending : list Point) (ds : list Drawn) : list LabelSpec :=
  match ds with
  | [] => []
  | Stroked p _ _ :: rest => labelsFrom (omap waypoint p) rest
  | Filled _ _ :: rest => labelsFrom pending rest
  | Texted t at_ _ :: rest =>
      {| text := t; anchor := at_; connector := connectorTo at_ pending |}
        :: labelsFrom [] rest
  end.

Definition labels (ds : list Drawn) : list LabelSpec := labelsFrom [] ds.

(** A context on which nothing has been drawn, with the canvas defaults. *)
Definition freshCtx : Ctx :=
  {| fillStyle := "#000000"; strokeStyle := "#000000"; font := "10px sans-serif";
     textAlign := "start"; textBaseline := "alphabetic"; lineWidth := lit 1;
     path := []; drawn := [] |}.

(** ** Chart.js as the component sees it *)

Record Dataset := {
  label : string;
  data : list num;
  backgroundColor : list string
}.

(** The plugins the component registers, by the chart they belong to; each
    has an [afterDraw] hook, defined further down. *)
Inductive Plugin :=
  | customLabels_stacked
  | scaleLabels
  | customLabels_pie.

(** The part of a ChartConfiguration that decides what is drawn where:
    colours of the bars aside, the styling options (borders, padding, legend
    and grid switches) are left out. *)
Record ChartConfiguration := {
  chartType : string;
  chartLabels : list string;
  datasets : list Dataset;
  indexAxis : string;
  stacked : bool;
  scaleMax : option num;
  rotation : option num;
  plugins : list Plugin
}.

Record ChartArea := {
  area_left : num;
  area_top : num;
  area_right : num;
  area_bottom : num;
  area_height : num
}.

(** An element of a dataset's meta data: a bar, with the centre and width
    Chart.js gave it. *)
Record BarElement := { bar_x : num; bar_width : num }.

(** The chart object an [afterDraw] hook receives: its size, its chart area,
    its data, and getDatasetMeta(0).data[0]. *)
Record ChartObject := {
  width : num;
  height : num;
  chartArea : ChartArea;
  chart_datasets : list Dataset;
  meta0 : BarElement
}.

(** A live chart, as the component holds it in [charts]. *)
Record Chart := {
  chart_id : nat;
  canvas : string;
  config : ChartConfiguration
}.

#[global] Instance Dataset_eq_dec : EqDecision Dataset.
Proof. solve_decision. Defined.
#[global] Instance Plugin_eq_dec : EqDecision Plugin.
Proof. solve_decision. Defined.
#[global] Instance ChartConfiguration_eq_dec : EqDecision ChartConfiguration.
Proof. solve_decision. Defined.
#[global] Instance Chart_eq_dec : EqDecision Chart.
Proof. solve_decision. Defined.

(** ** app.component.ts: the state of the component and of the page *)

(** The fields of [AppComponent], and what of the browser its methods read
    and write: the canvases mounted in the document, the charts Chart.js
    holds as live, its counter of chart ids, the pending
    [setTimeout(() => this.initializeCharts(), 100)] calls, and the
    subscriptions whose response has not arrived. *)
Record World := {
  selectedPeriod : num;
  clinicData : ClinicData;
  showTooltip : bool;
  charts : list Chart;
  document : gset string;
  instances : gset nat;
  nextId : nat;
  timers : nat;
  inflight : list (num * Notification)
}.

Definition with_charts (cs : list Chart) (w : World) : World :=
  {| selectedPeriod := selectedPeriod w; clinicData := clinicData w;
     showTooltip := showTooltip w; charts := cs; document := document w;
     instances := instances w; nextId := nextId w; timers := timers w;
     inflight := inflight w |}.

Definition with_clinicData (d : ClinicData) (w : World) : World :=
  {| selectedPeriod := selectedPeriod w; clinicData := d;
     showTooltip := showTooltip w; charts := charts w; document := document w;
     instances := instances w; nextId := nextId w; timers := timers w;
     inflight := inflight w |}.

Definition with_selectedPeriod (p : num) (w : World) : World :=
  {| selectedPeriod := p; clinicData := clinicData w;
     showTooltip := showTooltip w; charts := charts w; document := document w;
     instances := instances w; nextId := nextId w; timers := timers w;
     inflight := inflight w |}.

Definition with_document (d : gset string) (w : World) : World :=
  {| selectedPeriod := selectedPeriod w; clinicData := clinicData w;
     showTooltip := showTooltip w; charts := charts w; document := d;
     instances := instances w; nextId := nextId w; timers := timers w;
     inflight := inflight w |}.

Definition with_instances (live : gset nat) (next : nat) (w : World) : World :=
  {| selectedPeriod := selectedPeriod w; clinicData := clinicData w;
     showTooltip := showTooltip w; charts := charts w; document := document w;
     instances := live; nextId := next; timers := timers w;
     inflight := inflight w |}.

Definition with_timers (n : nat) (w : World) : World :=
  {| selectedPeriod := selectedPeriod w; clinicData := clinicData w;
     showTooltip := showTooltip w; charts := charts w; document := document w;
     instances := instances w; nextId := nextId w; timers := n;
     inflight := inflight w |}.

Definition with_inflight (l : list (num * Notification)) (w : World) : World :=
  {| selectedPeriod := selectedPeriod w; clinicData := clinicData w;
     showTooltip := showTooltip w; charts := charts w; document := document w;
     instances := instances w; nextId := nextId w; timers := timers w;
     inflight := l |}.

(** new Chart(ctx, config): a chart with the next id, live from now on, and
    this.charts.push(chart).  The canvas is free whenever the component gets
    here after [loadClinicData] destroyed its charts; what Chart.js does with
    a canvas that still carries a live chart is not modelled. *)
Definition new_Chart (canvasId : string) (cfg : ChartConfiguration) (w : World)
  : World :=
  let chart := {| chart_id := nextId w; canvas := canvasId; config := cfg |} in
  with_charts (charts w ++ [chart])
    (with_instances ({[ nextId w ]} ∪ instances w) (S (nextId w)) w).

(** chart.destroy() *)
Definition destroy (chart : Chart) (w : World) : World :=
  with_instances (instances w ∖ {[ chart_id chart ]}) (nextId w) w.

(** document.getElementById(id), then [if (!ctx) return;] *)
Definition getElementById (id : string) (w : World) : option string :=
  if decide (id ∈ document w) then Some id else None.

(** ** app.component.ts: the charts and their label overlays *)

Section Charts.
Context `{JsRuntime}.
Local Open Scope num_scope.

(** *** createVerticalStackedChart *)

Definition verticalStackedConfig (d : ClinicData) : ChartConfiguration :=
  {| chartType := "bar";
     chartLabels := [""];
     datasets :=
       [ {| label := "Below Range"; data := [belowRange (timeInRange d)];
            backgroundColor := ["#f44336"] |};
         {| label := "In Range"; data := [inRange (timeInRange d)];
            backgroundColor := ["#8bc34a"] |};
         {| label := "Above Range"; data := [aboveRange (timeInRange d)];
            backgroundColor := ["#ffc107"] |};
         {| label := "Very High"; data := [lit 1];
            backgroundColor := ["#ffc107"] |} ];
     indexAxis := "x";
     stacked := true;
     scaleMax := Some (lit 100);
     rotation := None;
     plugins := [customLabels_stacked] |}.

(** The locals [total], [belowHeight], [inRangeHeight] and [aboveHeight] of
    the hook; [d] is this.clinicData when the chart is drawn. *)
Definition stackedTotal (chart : ChartObject) : num :=
  area_height (chartArea chart).

Definition belowHeight (d : ClinicData) (chart : ChartObject) : num :=
  (belowRange (timeInRange d) / lit 100) * stackedTotal chart.

Definition inRangeHeight (d : ClinicData) (chart : ChartObject) : num :=
  (inRange (timeInRange d) / lit 100) * stackedTotal chart.

Definition aboveHeight (d : ClinicData) (chart : ChartObject) : num :=
  (aboveRange (timeInRange d) / lit 100) * stackedTotal chart.

Definition stackedLabelX (chart : ChartObject) : num :=
  bar_x (meta0 chart) + bar_width (meta0 chart) / lit 2 + lit 30.

Definition afterDraw_stacked (d : ClinicData) (chart : ChartObject) : Statement :=
  let area := chartArea chart in
  let x := stackedLabelX chart in
  let belowHeight := belowHeight d chart in
  let inRangeHeight := inRangeHeight d chart in
  let aboveHeight := aboveHeight d chart in
  statements
    [ set_fillStyle "#333";
      set_font "bold 14px Arial";
      set_textAlign "left";
      fillText "2%" x (area_bottom area - belowHeight / lit 2);
      fillText "82%" x (area_bottom area - belowHeight - inRangeHeight / lit 2);
      fillText "1%" x (area_top area + lit 15);
      fillText "15%" x
        (area_bottom area - belowHeight - inRangeHeight
           - aboveHeight * decimal 3 10) ].

(** *** createHorizontalScaleChart *)

Definition horizontalScaleConfig : ChartConfiguration :=
  {| chartType := "bar";
     chartLabels := [""];
     datasets :=
       [ {| label := "Very Low (40-54)"; data := [lit 14];
            backgroundColor := ["#d32f2f"] |};
         {| label := "Low (54-70)"; data := [lit 16];
            backgroundColor := ["#f44336"] |};
         {| label := "Target Range (70-180)"; data := [lit 110];
            backgroundColor := ["#4caf50"] |};
         {| label := "High (180-240)"; data := [lit 60];
            backgroundColor := ["#ff9800"] |};
         {| label := "Very High (240-400)"; data := [lit 160];
            backgroundColor := ["#ffc107"] |} ];
     indexAxis := "y";
     stacked := true;
     scaleMax := Some (lit 360);
     rotation := None;
     plugins := [scaleLabels] |}.

Record Range := { value : num; position : num }.

Definition ranges : list Range :=
  [ {| value := lit 40; position := lit 0 |};
    {| value := lit 54; position := lit 14 / lit 360 |};
    {| value := lit 70; position := lit 30 / lit 360 |};
    {| value := lit 180; position := lit 140 / lit 360 |};
    {| value := lit 240; position := lit 200 / lit 360 |};
    {| value := lit 400; position := lit 1 |} ].

Definition dividerLines : list num :=
  [ lit 14 / lit 360; lit 140 / lit 360; lit 1 ].

Definition scaleTotalWidth (chart : ChartObject) : num :=
  area_right (chartArea chart) - area_left (chartArea chart).

Definition afterDraw_scale (chart : ChartObject) : Statement :=
  let area := chartArea chart in
  let totalWidth := scaleTotalWidth chart in
  statements
    [ set_fillStyle "#666";
      set_font "11px Arial";
      set_textAlign "center";
      forEach ranges (fun range _ =>
        let x := area_left area + (totalWidth * position range) in
        fillText (Number_toString (value range)) x (area_top area - lit 8));
      set_strokeStyle "#ffffff";
      set_lineWidth (lit 1);
      forEach dividerLines (fun line _ =>
        let x := area_left area + (totalWidth * line) in
        statements
          [ beginPath;
            moveTo x (area_top area);
            lineTo x (area_bottom area);
            stroke ]);
      set_font "10px Arial";
      set_fillStyle "#999";
      set_textAlign "center";
      fillText "mg/dL" (area_left area + totalWidth / lit 2) (area_top area - lit 25) ].

(** *** createHorizontalBarChart and createGmiRangesChart: no overlay *)

Definition horizontalBarConfig (d : ClinicData) : ChartConfiguration :=
  {| chartType := "bar";
     chartLabels := ["Range"];
     datasets :=
       [ {| label := "Below"; data := [belowRange (timeInRange d)];
            backgroundColor := ["#f44336"] |};
         {| label := "In Range"; data := [inRange (timeInRange d)];
            backgroundColor := ["#8bc34a"] |};
         {| label := "Above"; data := [aboveRange (timeInRange d)];
            backgroundColor := ["#ffc107"] |} ];
     indexAxis := "y";
     stacked := true;
     scaleMax := Some (lit 100);
     rotation := None;
     plugins := [] |}.

Definition gmiLabels : list string := ["≤7%"; "7-8%"; "≥8%"].

Definition gmiData (d : ClinicData) : list num :=
  [ optimal (distribution (gmi d));
    suboptimal (distribution (gmi d));
    poor (distribution (gmi d)) ].

Definition gmiRangesConfig (d : ClinicData) : ChartConfiguration :=
  {| chartType := "bar";
     chartLabels := gmiLabels;
     datasets :=
       [ {| label := ""; data := gmiData d;
            backgroundColor := ["#8bc34a"; "#ffc107"; "#f44336"] |} ];
     indexAxis := "x";
     stacked := false;
     scaleMax := Some (lit 100);
     rotation := None;
     plugins := [] |}.

(** *** createPieChart *)

Definition pieConfig (d : ClinicData) : ChartConfiguration :=
  {| chartType := "pie";
     chartLabels := gmiLabels;
     datasets :=
       [ {| label := ""; data := gmiData d;
            backgroundColor := ["#8bc34a"; "#ffc107"; "#f44336"] |} ];
     indexAxis := "x";
     stacked := false;
     scaleMax := None;
     rotation := Some (lit 150);
     plugins := [customLabels_pie] |}.

Record Segment := {
  segment_value : num;
  segment_label : string;
  segment_color : string
}.

(** data[i], and data[i] + '%': an index past the end reads undefined, which
    is NaN in arithmetic and "undefined" in a string. *)
Definition element (xs : list num) (i : nat) : num :=
  default NaN (xs !! i).

Definition percentLabel (xs : list num) (i : nat) : string :=
  match xs !! i with
  | Some v => Number_toString v
  | None => "undefined"
  end +:+ "%".

(** chart.data.datasets[0].data *)
Definition pieData (chart : ChartObject) : list num :=
  match chart_datasets chart with
  | ds :: _ => data ds
  | [] => []
  end.

(** data.reduce((a, b) => a + b, 0) *)
Definition pieTotal (xs : list num) : num :=
  fold_left (fun a b => a + b)%num xs (lit 0).

Definition pieSegments (xs : list num) : list Segment :=
  [ {| segment_value := element xs 0; segment_label := percentLabel xs 0;
       segment_color := "#8bc34a" |};
    {| segment_value := element xs 1; segment_label := percentLabel xs 1;
       segment_color := "#ffc107" |};
    {| segment_value := element xs 2; segment_label := percentLabel xs 2;
       segment_color := "#f44336" |} ].

(** The start angle, for a rotation given in degrees:
    -Math.PI / 2 + (150 * Math.PI / 180) in the source. *)
Definition startAngle (rotationDegrees : num) : num :=
  (- Math_PI) / lit 2 + (rotationDegrees * Math_PI / lit 180).

(** One turn of segments.forEach: the local [currentAngle] is carried next to
    the context. *)
Definition pieSegmentStep (centerX centerY radius total : num)
    (state : num * Ctx) (index : nat) (segment : Segment) : num * Ctx :=
  let '(currentAngle, ctx) := state in
  let segmentAngle := (segment_value segment / total) * lit 2 * Math_PI in
  let labelAngle := currentAngle + segmentAngle / lit 2 in
  let innerX := centerX + Math_cos labelAngle * radius in
  let innerY := centerY + Math_sin labelAngle * radius in
  let labelX :=
    match index with
    | 0%nat => centerX - lit 140
    | 1%nat => centerX + lit 130
    | 2%nat => centerX + lit 110
    | _ => centerX
    end in
  let labelY :=
    match index with
    | 0%nat => centerY - lit 10
    | 1%nat => centerY + lit 20
    | 2%nat => centerY + lit 90
    | _ => centerY
    end in
  let elbow (extra : num) (midX2 midY2 : num) : Statement :=
    let midX1 := centerX + Math_cos labelAngle * (radius + extra) in
    let midY1 := centerY + Math_sin labelAngle * (radius + extra) in
    statements
      [ lineTo midX1 midY1;
        lineTo midX2 midY2;
        lineTo labelX (labelY - lit 5) ] in
  let ctx' :=
    statements
      [ set_strokeStyle "#666";
        set_lineWidth (decimal 15 10);
        beginPath;
        moveTo innerX innerY;
        match index with
        | 0%nat => elbow (lit 25) (centerX - lit 110) (centerY - lit 10)
        | 1%nat => elbow (lit 30) (centerX + lit 100) (centerY + lit 20)
        | 2%nat => elbow (lit 25) (centerX + lit 80) (centerY + lit 75)
        | _ => statements []
        end;
        lineTo labelX (labelY - lit 5);
        stroke;
        set_fillStyle "white";
        beginPath;
        arc labelX (labelY - lit 5) (lit 16) (lit 0) (lit 2 * Math_PI);
        fill;
        set_fillStyle "#333";
        set_font "bold 12px Arial";
        set_textAlign "center";
        set_textBaseline "middle";
        fillText (segment_label segment) labelX (labelY - lit 5) ] ctx in
  ((currentAngle + segmentAngle)%num, ctx').

Definition afterDraw_pieAt (rotationDegrees : num) (chart : ChartObject)
  : Statement :=
  fun ctx =>
    let centerX := width chart / lit 2 in
    let centerY := height chart / lit 2 in
    let radius := lit 60 in
    let xs := pieData chart in
    let total := pieTotal xs in
    snd (fold_left
           (fun state '(index, segment) =>
              pieSegmentStep centerX centerY radius total state index segment)
           (imap (fun index segment => (index, segment)) (pieSegments xs))
           (startAngle rotationDegrees, ctx)).

Definition afterDraw_pie : ChartObject -> Statement :=
  afterDraw_pieAt (lit 150).

(** The hook of a plugin, for the data the component holds at the draw. *)
Definition afterDraw (p : Plugin) (d : ClinicData) (chart : ChartObject)
  : Statement :=
  match p with
  | customLabels_stacked => afterDraw_stacked d chart
  | scaleLabels => afterDraw_scale chart
  | customLabels_pie => afterDraw_pie chart
  end.

End Charts.

(** ** app.component.ts: the life cycle of the charts *)

Section Lifecycle.
Context `{JsRuntime}.

(** The ids of the five canvases, in the order [initializeCharts] visits
    them. *)
Definition canvasIds : list string :=
  [ "timeInRangeVerticalStacked";
    "timeInRangeHorizontalScale";
    "timeInRangeHorizontal";
    "gmiPieChart";
    "gmiRanges" ].

(** The common shape of the five create methods:
    [const ctx = document.getElementById(id); if (!ctx) return;
     ... const chart = new Chart(ctx, config); this.charts.push(chart);] *)
Definition createChart (id : string) (cfg : ClinicData -> ChartConfiguration)
    (w : World) : World :=
  match getElementById id w with
  | None => w
  | Some ctx => new_Chart ctx (cfg (clinicData w)) w
  end.

Definition createVerticalStackedChart : World -> World :=
  createChart "timeInRangeVerticalStacked" verticalStackedConfig.

Definition createHorizontalScaleChart : World -> World :=
  createChart "timeInRangeHorizontalScale" (fun _ => horizontalScaleConfig).

Definition createHorizontalBarChart : World -> World :=
  createChart "timeInRangeHorizontal" horizontalBarConfig.

Definition createPieChart : World -> World :=
  createChart "gmiPieChart" pieConfig.

Definition createGmiRangesChart : World -> World :=
  createChart "gmiRanges" gmiRangesConfig.

Definition initializeCharts (w : World) : World :=
  createGmiRangesChart
    (createPieChart
       (createHorizontalBarChart
          (createHorizontalScaleChart
             (createVerticalStackedChart w)))).

(** this.charts.forEach(chart => chart.destroy()) *)
Definition destroyCharts (w : World) : World :=
  fold_left (fun w chart => destroy chart w) (charts w) w.

Definition ngOnDestroy (w : World) : World := destroyCharts w.

(** The [next] callback of loadClinicData: keep the data, destroy the
    charts, empty the list, and leave initializeCharts to a timer. *)
Definition loadClinicData_next (data : ClinicData) (w : World) : World :=
  let w1 := with_clinicData data w in
  let w2 := destroyCharts w1 in
  let w3 := with_charts [] w2 in
  with_timers (S (timers w3)) w3.

(** The [error] callback of loadClinicData. *)
Definition loadClinicData_error (period : num) (w : World) : World :=
  let d := clinicData w in
  with_clinicData
    {| patientCount := patientCount d;
       reportingPeriod := Number_toString period +:+ " days";
       dateRange := dateRange d;
       lastUpdated := lastUpdated d;
       timeInRange := timeInRange d;
       gmi := gmi d |} w.

Definition deliver (period : num) (n : Notification) (w : World) : World :=
  match n with
  | Next data => loadClinicData_next data w
  | Error _ => loadClinicData_error period w
  end.

(** loadClinicData(period): subscribe to the service.  An observable made by
    of() calls back at once; one that waits for the network calls back when
    the response is there. *)
Definition loadClinicData (period : num) (env : Env) (w : World) : World :=
  let emission := getClinicDataByPeriod period env in
  match requests emission with
  | [] => deliver period (outcome emission) w
  | _ :: _ => with_inflight (inflight w ++ [(period, outcome emission)]) w
  end.

Definition ngOnInit (env : Env) (w : World) : World :=
  loadClinicData (selectedPeriod w) env w.

Definition onPeriodChange (period : num) (env : Env) (w : World) : World :=
  loadClinicData period env (with_selectedPeriod period w).

(** The i-th response arrives. *)
Definition respond (i : nat) (w : World) : World :=
  match inflight w !! i with
  | None => w
  | Some (period, n) => deliver period n (with_inflight (delete i (inflight w)) w)
  end.

(** A timer set by loadClinicData fires. *)
Definition timeout (w : World) : World :=
  match timers w with
  | O => w
  | S n => initializeCharts (with_timers n w)
  end.

(** The component when Angular has built it, on a page with the canvases
    [doc]. *)
Definition newComponent (doc : gset string) : World :=
  {| selectedPeriod := lit 30;
     clinicData :=
       {| patientCount := lit 120;
          reportingPeriod := "30 days";
          dateRange := "01/01/2024 - 01/31/2024";
          lastUpdated := "01/06/2024, 3:00 PM";
          timeInRange :=
            {| inRange := lit 82; aboveRange := lit 15; belowRange := lit 2 |};
          gmi :=
            {| average := decimal 67 10;
               distribution :=
                 {| optimal := lit 72; suboptimal := lit 23; poor := lit 5 |} |} |};
     showTooltip := false;
     charts := [];
     document := doc;
     instances := ∅;
     nextId := 0;
     timers := 0;
     inflight := [] |}.

(** What can happen to the component. *)
Inductive Event :=
  | NgOnInit (env : Env)
  | OnPeriodChange (period : num) (env : Env)
  | Respond (i : nat)
  | Timeout
  | Layout (doc : gset string)
  | NgOnDestroy.

Definition step (e : Event) (w : World) : World :=
  match e with
  | NgOnInit env => ngOnInit env w
  | OnPeriodChange period env => onPeriodChange period env w
  | Respond i => respond i w
  | Timeout => timeout w
  | Layout doc => with_document doc w
  | NgOnDestroy => ngOnDestroy w
  end.

Definition run (events : list Event) (w : World) : World :=
  fold_left (fun w e => step e w) events w.

(** The worlds the component can be in. *)
Inductive reachable : World -> Prop :=
  | reachable_new doc : reachable (newComponent doc)
  | reachable_step e w : reachable w -> reachable (step e w).

(** The canvases of the page among the five, in the order of
    [initializeCharts]. *)
Definition surfaces (w : World) : list string :=
  filter (fun id => id ∈ document w) canvasIds.

End Lifecycle.

(** ** app.component.ts: downloadImage *)

(** A Date, by its UTC fields. *)
Record DateTime := {
  year : Z;
  month : Z;
  day : Z;
  hours : Z;
  minutes : Z;
  seconds : Z;
  milliseconds : Z
}.

(** The fields of a Date JavaScript can hold. *)
Definition validDate (d : DateTime) : Prop :=
  (-271821 <= year d <= 275760 /\ 1 <= month d <= 12 /\ 1 <= day d <= 31 /\
   0 <= hours d <= 23 /\ 0 <= minutes d <= 59 /\ 0 <= seconds d <= 59 /\
   0 <= milliseconds d <= 999)%Z.

Definition digit (n : Z) : ascii :=
  ascii_of_nat (48 + Z.to_nat (n mod 10)).

(** The last [width] decimal digits of [n]: [n] padded with zeros when it has
    fewer. *)
Fixpoint digits (width : nat) (n : Z) : string :=
  match width with
  | O => ""
  | S w => digits w (n / 10) +:+ String (digit n) ""
  end.

(** Years 0 to 9999 have four digits, the others a sign and six. *)
Definition yearString (y : Z) : string :=
  if decide (0 <= y <= 9999)%Z then digits 4 y
  else (if decide (y < 0)%Z then "-" else "+") +:+ digits 6 (Z.abs y).

(** Date.prototype.toISOString() *)
Definition toISOString (d : DateTime) : string :=
  yearString (year d) +:+ "-" +:+ digits 2 (month d) +:+ "-" +:+ digits 2 (day d)
    +:+ "T" +:+ digits 2 (hours d) +:+ ":" +:+ digits 2 (minutes d)
    +:+ ":" +:+ digits 2 (seconds d) +:+ "." +:+ digits 3 (milliseconds d) +:+ "Z".

(** s.replace(/[:.]/g, '-') *)
Fixpoint replaceColonDot (s : string) : string :=
  match s with
  | EmptyString => EmptyString
  | String c rest =>
      String (if decide (c = ":"%char \/ c = "."%char) then "-"%char else c)
        (replaceColonDot rest)
  end.

(** s.slice(start, end): a negative index counts from the end. *)
Definition slice (s : string) (start end_ : Z) : string :=
  let len := Z.of_nat (String.length s) in
  let clamp i := if decide (i < 0)%Z then Z.max (len + i) 0 else Z.min i len in
  let from := clamp start in
  let to := clamp end_ in
  substring (Z.to_nat from) (Z.to_nat (to - from)) s.

(** The name [downloadImage] gives the file, when the clock reads [now]. *)
Definition downloadName (now : DateTime) : string :=
  let timestamp := slice (replaceColonDot (toISOString now)) 0 (-5) in
  "clinic-outcomes-" +:+ timestamp +:+ ".png".

(** The ISO-8601 timestamp to the second: [toISOString] without its
    fraction and zone. *)
Definition isoSeconds (d : DateTime) : string :=
  yearString (year d) +:+ "-" +:+ digits 2 (month d) +:+ "-" +:+ digits 2 (day d)
    +:+ "T" +:+ digits 2 (hours d) +:+ ":" +:+ digits 2 (minutes d)
    +:+ ":" +:+ digits 2 (seconds d).

(** ** The second copy of the component: src/app/app.component.ts

    The repository holds a second app.component.ts.  Its service calls, its
    chart life cycle and its downloadImage are those above; its three label
    overlays and the data of its scale chart differ, and are given here. *)

Module SrcApp.
Section Charts.
Context `{JsRuntime}.
Local Open Scope num_scope.

Definition stackedLabelX (chart : ChartObject) : num :=
  bar_x (meta0 chart) + bar_width (meta0 chart) / lit 2 + lit 20.

Definition afterDraw_stacked (d : ClinicData) (chart : ChartObject) : Statement :=
  let area := chartArea chart in
  let x := stackedLabelX chart in
  let belowHeight := belowHeight d chart in
  let inRangeHeight := inRangeHeight d chart in
  let aboveHeight := aboveHeight d chart in
  statements
    [ set_fillStyle "#333";
      set_font "bold 12px Arial";
      set_textAlign "left";
      fillText "2%" x (area_bottom area - belowHeight / lit 2);
      fillText "82%" x (area_bottom area - belowHeight - inRangeHeight / lit 2);
      fillText "15%" x
        (area_bottom area - belowHeight - inRangeHeight - aboveHeight / lit 3);
      fillText "1%" x (area_top area + lit 25) ].

Definition horizontalScaleConfig : ChartConfiguration :=
  {| chartType := "bar";
     chartLabels := [""];
     datasets :=
       [ {| label := "40-54"; data := [lit 10]; backgroundColor := ["#f44336"] |};
         {| label := "54-70"; data := [lit 10]; backgroundColor := ["#f44336"] |};
         {| label := "70-180"; data := [lit 10]; backgroundColor := ["#8bc34a"] |};
         {| label := "180-240"; data := [lit 10]; backgroundColor := ["#ffc107"] |};
         {| label := "240-400"; data := [lit 10]; backgroundColor := ["#ffc107"] |} ];
     indexAxis := "y";
     stacked := true;
     scaleMax := Some (lit 50);
     rotation := None;
     plugins := [scaleLabels] |}.

Definition labelPositions (chart : ChartObject) : list (string * num) :=
  let area := chartArea chart in
  let totalWidth := area_right area - area_left area in
  let segmentWidth := totalWidth / lit 5 in
  [ ("40", area_left area);
    ("54", area_left area + segmentWidth * lit 1);
    ("70", area_left area + segmentWidth * lit 2);
    ("180", area_left area + segmentWidth * lit 3);
    ("240", area_left area + segmentWidth * lit 4);
    ("400", area_right area) ].

Definition afterDraw_scale (chart : ChartObject) : Statement :=
  let area := chartArea chart in
  statements
    [ set_fillStyle "#666";
      set_font "10px Arial";
      set_textAlign "center";
      forEach (labelPositions chart) (fun label _ =>
        fillText (fst label) (snd label) (area_top area - lit 5)) ].

Record PieLabel := {
  pie_text : string;
  pie_angle : num;
  pie_x : num;
  pie_y : num
}.

Definition pieLabels (centerX centerY : num) : list PieLabel :=
  [ {| pie_text := "72%"; pie_angle := Math_PI;
       pie_x := centerX - lit 80; pie_y := centerY - lit 20 |};
    {| pie_text := "23%"; pie_angle := lit 0;
       pie_x := centerX + lit 80; pie_y := centerY + lit 10 |};
    {| pie_text := "5%"; pie_angle := Math_PI / lit 2 + decimal 3 10;
       pie_x := centerX + lit 20; pie_y := centerY + lit 80 |} ].

Definition afterDraw_pie (chart : ChartObject) : Statement :=
  let centerX := width chart / lit 2 in
  let centerY := height chart / lit 2 in
  let radius := lit 80 in
  statements
    [ set_fillStyle "#333";
      set_font "bold 14px Arial";
      set_textAlign "center";
      set_strokeStyle "#666";
      set_lineWidth (lit 1);
      forEach (pieLabels centerX centerY) (fun label _ =>
        let edgeX := centerX + Math_cos (pie_angle label) * radius in
        let edgeY := centerY + Math_sin (pie_angle label) * radius in
        statements
          [ beginPath;
            moveTo edgeX edgeY;
            lineTo (pie_x label) (pie_y label);
            stroke;
            fillText (pie_text label) (pie_x label) (pie_y label - lit 5) ]) ].

Definition afterDraw (p : Plugin) (d : ClinicData) (chart : ChartObject)
  : Statement :=
  match p with
  | customLabels_stacked => afterDraw_stacked d chart
  | scaleLabels => afterDraw_scale chart
  | customLabels_pie => afterDraw_pie chart
  end.

End Charts.
End SrcApp.

(** ** What a hook draws, and the notions the properties are stated with *)

(** What a statement adds to the drawing of a context. *)
Definition emitted (s : Statement) (c : Ctx) : list Drawn :=
  drop (length (drawn c)) (drawn (s c)).

(** The text and the anchor of every label. *)
Definition textAnchors (ls : list LabelSpec) : list (string * Point) :=
  (fun l => (text l, anchor l)) <$> ls.

Definition finitePoint (p : Point) : bool :=
  isFinite (px p) && isFinite (py p).

(** [x < y] on numbers, false as soon as one side is NaN. *)
Definition num_lt (x y : num) : Prop :=
  match x, y with
  | NaN, _ | _, NaN => False
  | Fin a, Fin b => (a < b)%Qc
  | NegInf, (Fin _ | PosInf) | Fin _, PosInf => True
  | _, _ => False
  end.

(** The middle of a stacked segment of height [own] that sits on segments of
    total height [below], in a chart area that ends at [bottom]. *)
Definition segmentCentre (bottom below own : num) : num :=
  (bottom - below - own / lit 2)%num.

(** The widths of the segments of the scale chart, as its datasets give
    them, and the width before each tick. *)
Definition segmentWidths : list num :=
  concat (data <$> datasets horizontalScaleConfig).

Fixpoint cumulative (acc : num) (ws : list num) : list num :=
  match ws with
  | [] => [acc]
  | w :: rest => acc :: cumulative (acc + w)%num rest
  end.

(** The fixed anchors and elbows of the pie labels, for a chart centred at
    ([centerX], [centerY]). *)
Definition pieAnchors (centerX centerY : num) : list Point :=
  [ {| px := centerX - lit 140; py := centerY - lit 10 - lit 5 |};
    {| px := centerX + lit 130; py := centerY + lit 20 - lit 5 |};
    {| px := centerX + lit 110; py := centerY + lit 90 - lit 5 |} ]%num.

Definition pieElbows (centerX centerY : num) : list Point :=
  [ {| px := centerX - lit 110; py := centerY - lit 10 |};
    {| px := centerX + lit 100; py := centerY + lit 20 |};
    {| px := centerX + lit 80; py := centerY + lit 75 |} ]%num.

(** The style of a text drawn after the hook has set the fill style, the
    font and the alignment: the baseline is the one the context had. *)
Definition textStyle (fillStyle font textAlign : string) (c : Ctx) : TextStyle :=
  {| text_fillStyle := fillStyle; text_font := font;
     text_textAlign := textAlign; text_textBaseline := textBaseline c |}.

(** ** Inputs the model is evaluated on *)

Definition clinicDataOf (below within above opt subopt poor_ : Z) : ClinicData :=
  {| patientCount := lit 120;
     reportingPeriod := "30 days";
     dateRange := "01/01/2024 - 01/31/2024";
     lastUpdated := "01/06/2024, 3:00 PM";
     timeInRange :=
       {| inRange := lit within; aboveRange := lit above; belowRange := lit below |};
     gmi :=
       {| average := decimal 67 10;
          distribution :=
            {| optimal := lit opt; suboptimal := lit subopt; poor := lit poor_ |} |} |}.

(** The data the component starts with. *)
Definition sampleData : ClinicData := clinicDataOf 2 82 15 72 23 5.

(** A 400 x 300 chart whose area is 200 high and 360 wide, drawn for the
    datasets [ds]. *)
Definition chartOf (ds : list Dataset) : ChartObject :=
  {| width := lit 400;
     height := lit 300;
     chartArea :=
       {| area_left := lit 20; area_top := lit 10; area_right := lit 380;
          area_bottom := lit 210; area_height := lit 200 |};
     chart_datasets := ds;
     meta0 := {| bar_x := lit 60; bar_width := lit 24 |} |}.

Definition failingEnv : Env :=
  {| network := fun _ => HttpFail TransportError; localeNow := "1/6/2024, 3:00:00 PM" |}.

Definition servingEnv (body : ClinicData) : Env :=
  {| network := fun _ => HttpOk body; localeNow := "1/6/2024, 3:00:00 PM" |}.

(** The point at distance [dist] from the centre of the pie in the direction
    [angle]. *)
Definition onRay `{JsRuntime} (centerX centerY angle dist : num) : Point :=
  {| px := (centerX + Math_cos angle * dist)%num;
     py := (centerY + Math_sin angle * dist)%num |}.

(** The label of a pie segment whose middle is in the direction [angle]: the
    connector leaves the pie at radius 60, bends [extra] further out and at
    [elbow], and ends at the anchor. *)
Definition pieLabel `{JsRuntime} (centerX centerY angle extra : num)
    (elbow anchor_ : Point) (text_ : string) : LabelSpec :=
  {| text := text_;
     anchor := anchor_;
     connector :=
       [ onRay centerX centerY angle (lit 60);
         onRay centerX centerY angle (lit 60 + extra)%num;
         elbow; anchor_; anchor_ ] |}.

(** ** The charts of a page, for the properties of the life cycle *)

(** The canvas of each chart and the configuration it is created with, in
    the order of [initializeCharts]. *)
Definition chartTable : list (string * (ClinicData -> ChartConfiguration)) :=
  [ ("timeInRangeVerticalStacked", verticalStackedConfig);
    ("timeInRangeHorizontalScale", fun _ => horizontalScaleConfig);
    ("timeInRangeHorizontal", horizontalBarConfig);
    ("gmiPieChart", pieConfig);
    ("gmiRanges", gmiRangesConfig) ].

Definition createAll (table : list (string * (ClinicData -> ChartConfiguration)))
    (w : World) : World :=
  fold_left (fun w '(id, cfg) => createChart id cfg w) table w.

(** The charts of the canvases of [table] that are in [present], for the
    snapshot [d], numbered from [first]. *)
Fixpoint built (d : ClinicData) (present : gset string) (first : nat)
    (table : list (string * (ClinicData -> ChartConfiguration))) : list Chart :=
  match table with
  | [] => []
  | (id, cfg) :: rest =>
      if decide (id ∈ present)
      then {| chart_id := first; canvas := id; config := cfg d |}
             :: built d present (S first) rest
      else built d present first rest
  end.

(** What every world the component reaches satisfies: the ids in use are
    below the counter, and a chart that is live is in the list. *)
Definition consistent (w : World) : Prop :=
  (forall c, c ∈ charts w -> (chart_id c < nextId w)%nat) /\
  (forall i, i ∈ instances w -> (i < nextId w)%nat) /\
  instances w ⊆ list_to_set (chart_id <$> charts w).

(** ** app.component.ts: onPrint, captureScreenshot, fallbackScreenshot *)

(** What a capture can produce: the dashboard as html2canvas rendered it, or
    the canvas of the fallback, with its size, its background and what was
    written on it. *)
Inductive Image :=
  | DashboardImage
  | FallbackImage (imageWidth imageHeight : num) (background : string)
      (content : list Drawn).

(** What the user and the console get to see. *)
Inductive Effect :=
  | ConsoleLog (message : string)
  | ConsoleError (message : string)
  | Alert (message : string)
  | Download (fileName : string) (image : Image).

(** canvas.toBlob(callback): it throws, or calls back with a blob or with
    null. *)
Inductive ToBlob :=
  | ToBlob_throws
  | ToBlob_calls (blob : bool).

(** html2canvas(element, options): the call throws, or the promise it
    returns rejects, or resolves with a canvas. *)
Inductive Html2Canvas :=
  | Html2Canvas_throws
  | Html2Canvas_rejects
  | Html2Canvas_resolves (toBlob : ToBlob).

(** The page at the moment of a capture. *)
Record Page := {
  dashboardElement : bool;
  html2canvas : option Html2Canvas;
  fallbackThrows : bool;
  canvasContext : bool;
  fallbackBlob : bool;
  innerWidth : num;
  innerHeight : num;
  clock : DateTime;
  clockLocale : string
}.

(** downloadImage: a link to the blob is clicked, which downloads it under
    a name made from the clock; its DOM calls are taken not to throw. *)
Definition downloadImage (page : Page) (image : Image) : list Effect :=
  [ Download (downloadName (clock page)) image;
    ConsoleLog "Screenshot saved to downloads folder" ].

Section Capture.
Context `{JsRuntime}.

(** The lines fallbackScreenshot writes, after it has filled the canvas
    with white. *)
Definition fallbackText (d : ClinicData) (page : Page) : Statement :=
  let percent (v : num) := Number_toString v +:+ "%" in
  statements
    [ set_fillStyle "#333333";
      set_font "bold 24px Arial";
      fillText "Clinic Outcomes Dashboard" (lit 50) (lit 50);
      set_font "16px Arial";
      fillText ("Generated on: " +:+ clockLocale page) (lit 50) (lit 80);
      fillText ("Period: " +:+ reportingPeriod d) (lit 50) (lit 110);
      fillText ("Patients: " +:+ Number_toString (patientCount d)) (lit 50) (lit 140);
      fillText ("Date Range: " +:+ dateRange d) (lit 50) (lit 170);
      set_font "bold 18px Arial";
      fillText "Time in Range:" (lit 50) (lit 220);
      set_font "14px Arial";
      fillText ("Below Range: " +:+ percent (belowRange (timeInRange d)))
        (lit 70) (lit 250);
      fillText ("In Range: " +:+ percent (inRange (timeInRange d)))
        (lit 70) (lit 280);
      fillText ("Above Range: " +:+ percent (aboveRange (timeInRange d)))
        (lit 70) (lit 310);
      set_font "bold 18px Arial";
      fillText "Glucose Management Indicator (GMI):" (lit 50) (lit 360);
      set_font "14px Arial";
      fillText ("Average GMI: " +:+ percent (average (gmi d))) (lit 70) (lit 390);
      fillText ("≤7%: " +:+ percent (optimal (distribution (gmi d))))
        (lit 70) (lit 420);
      fillText ("7-8%: " +:+ percent (suboptimal (distribution (gmi d))))
        (lit 70) (lit 450);
      fillText ("≥8%: " +:+ percent (poor (distribution (gmi d))))
        (lit 70) (lit 480) ].

(** fallbackScreenshot: an exception anywhere in its try block ends in an
    alert; without a 2D context, or when toBlob calls back with null,
    nothing happens. *)
Definition fallbackScreenshot (d : ClinicData) (page : Page) : list Effect :=
  if fallbackThrows page then
    [ ConsoleError "Fallback screenshot failed:";
      Alert "Screenshot capture is not supported in this browser" ]
  else if canvasContext page then
    if fallbackBlob page then
      downloadImage page
        (FallbackImage (lit 800) (lit 600) "#ffffff"
           (drawn (fallbackText d page (set_fillStyle "#ffffff" freshCtx))))
    else []
  else [].

Definition captureScreenshot (d : ClinicData) (page : Page) : list Effect :=
  if negb (dashboardElement page) then
    ConsoleError "Dashboard element not found" :: fallbackScreenshot d page
  else
    match html2canvas page with
    | None =>
        ConsoleLog "html2canvas not available, using fallback"
          :: fallbackScreenshot d page
    | Some Html2Canvas_throws =>
        ConsoleLog "Using html2canvas for screenshot"
          :: ConsoleError "Screenshot error:" :: fallbackScreenshot d page
    | Some Html2Canvas_rejects =>
        ConsoleLog "Using html2canvas for screenshot"
          :: ConsoleError "html2canvas failed:" :: fallbackScreenshot d page
    | Some (Html2Canvas_resolves toBlob) =>
        ConsoleLog "Using html2canvas for screenshot"
          :: ConsoleLog "Screenshot captured successfully"
          :: match toBlob with
             | ToBlob_throws =>
                 ConsoleError "html2canvas failed:" :: fallbackScreenshot d page
             | ToBlob_calls false =>
                 ConsoleError "Failed to create blob from canvas"
                   :: fallbackScreenshot d page
             | ToBlob_calls true => downloadImage page DashboardImage
             end
    end.

(** onPrint: the capture runs from a timer, one second later. *)
Definition onPrint (d : ClinicData) (page : Page) : list Effect :=
  ConsoleLog "Export data for printing:" :: captureScreenshot d page.

End Capture.

(** The downloads and the alerts among the effects of a capture. *)
Definition downloads (es : list Effect) : list (string * Image) :=
  omap (fun e => match e with Download n i => Some (n, i) | _ => None end) es.

Definition alerts (es : list Effect) : list string :=
  omap (fun e => match e with Alert m => Some m | _ => None end) es.

(** The primary method produced an image. *)
Definition primarySucceeds (page : Page) : bool :=
  dashboardElement page
  && match html2canvas page with
     | Some (Html2Canvas_resolves (ToBlob_calls true)) => true
     | _ => false
     end.

(** The fallback produced an image. *)
Definition fallbackSucceeds (page : Page) : bool :=
  negb (fallbackThrows page) && canvasContext page && fallbackBlob page.

(** The date [d] with [ms] as its milliseconds. *)
Definition withMilliseconds (ms : Z) (d : DateTime) : DateTime :=
  {| year := year d; month := month d; day := day d; hours := hours d;
     minutes := minutes d; seconds := seconds d; milliseconds := ms |}.

(** The waypoints of every line a drawing strokes. *)
Definition strokes (ds : list Drawn) : list (list Point) :=
  omap (fun d => match d with
                 | Stroked p _ _ => Some (omap waypoint p)
                 | _ => None
                 end) ds.

(** The first label with the text [t], and its coordinates (NaN when there
    is none). *)
Definition labelNamed (t : string) (ls : list LabelSpec) : option LabelSpec :=
  head (filter (fun l => text l = t) ls).

Definition labelX (t : string) (ls : list LabelSpec) : num :=
  default NaN ((px ∘ anchor) <$> labelNamed t ls).

Definition labelY (t : string) (ls : list LabelSpec) : num :=
  default NaN ((py ∘ anchor) <$> labelNamed t ls).

(** ** captureScreenshot and fallbackScreenshot of the copy under src/app

    This copy hands document.body to html2canvas without looking for the
    dashboard element, does nothing when toBlob calls back with null, and
    its fallback canvas has the size of the window and two lines of text. *)

Module SrcAppCapture.

Definition fallbackText (page : Page) : Statement :=
  statements
    [ set_fillStyle "#333333";
      set_font "16px Arial";
      fillText "Clinic Outcomes Dashboard" (lit 20) (lit 40);
      fillText ("Generated on: " +:+ clockLocale page) (lit 20) (lit 70) ].

Definition fallbackScreenshot (page : Page) : list Effect :=
  if fallbackThrows page then
    [ ConsoleError "Fallback screenshot failed:";
      Alert "Screenshot capture is not supported in this browser" ]
  else if canvasContext page then
    if fallbackBlob page then
      downloadImage page
        (FallbackImage (innerWidth page) (innerHeight page) "#ffffff"
           (drawn (fallbackText page (set_fillStyle "#ffffff" freshCtx))))
    else []
  else [].

Definition captureScreenshot (page : Page) : list Effect :=
  match html2canvas page with
  | None => fallbackScreenshot page
  | Some Html2Canvas_throws =>
      ConsoleError "Screenshot error:" :: fallbackScreenshot page
  | Some Html2Canvas_rejects =>
      ConsoleError "Screenshot capture failed:" :: fallbackScreenshot page
  | Some (Html2Canvas_resolves ToBlob_throws) =>
      ConsoleError "Screenshot capture failed:" :: fallbackScreenshot page
  | Some (Html2Canvas_resolves (ToBlob_calls false)) => []
  | Some (Html2Canvas_resolves (ToBlob_calls true)) =>
      downloadImage page DashboardImage
  end.

End SrcAppCapture.

(** ** The arithmetic of the JavaScript number type

    A JavaScript number is a binary64 value, and every operation rounds its
    exact result to the nearest binary64 value, ties to the even one.  The
    definitions above compute with exact rationals, which is enough for what
    a label says, for the order of anchors and for the shape of a drawing.
    What is said about the size of a rounding error is said with the
    operations of this module, which round as the language does: 53 bits of
    precision, the least step 2^-1074 below 2^-1022, and an infinity for a
    result that rounds to 2^1024 or beyond.  The sign of zero is not kept. *)

Module Binary64.

(** The relative error of one rounding is at most [u] = 2^-53; among the
    subnormal numbers the error is at most [eta] = 2^-1075, half of the least
    step. *)
Definition u : Q := 2 ^ (-53).
Definition eta : Q := 2 ^ (-1075).

(** The integer part of the binary logarithm of a positive rational. *)
Definition Qlog2 (x : Q) : Z :=
  let k := (Z.log2 (Qnum x) - Z.log2 (Z.pos (Qden x)))%Z in
  if Qle_bool (2 ^ k) x then k else (k - 1)%Z.

(** The exponent of the last bit kept for [x]: 52 places below its leading
    bit, and never below 2^-1074. *)
Definition lastBit (x : Q) : Z := Z.max (Qlog2 (Qabs x) - 52) (-1074).

(** The nearest integer, the even one of two that are equally near. *)
Definition nearestEven (m : Q) : Z :=
  let f := Qfloor m in
  match (m - inject_Z f ?= 1 # 2)%Q with
  | Lt => f
  | Gt => (f + 1)%Z
  | Eq => if Z.even f then f else (f + 1)%Z
  end.

Definition nearest (x : Q) : Q :=
  inject_Z (nearestEven (x / 2 ^ lastBit x)) * 2 ^ lastBit x.

Definition round64 (x : Q) : num :=
  if Qeq_bool x 0 then Fin (Q2Qc 0)
  else if Qle_bool (2 ^ 1024) (Qabs (nearest x))
       then (if Qle_bool 0 x then PosInf else NegInf)
       else Fin (Q2Qc (nearest x)).

(** The four operations: the special values behave as above, a finite
    result is rounded. *)
Definition add (x y : num) : num :=
  match x, y with
  | Fin a, Fin b => round64 (a + b)
  | _, _ => num_add x y
  end.

Definition sub (x y : num) : num := add x (num_neg y).

Definition mul (x y : num) : num :=
  match x, y with
  | Fin a, Fin b => round64 (a * b)
  | _, _ => num_mul x y
  end.

Definition div (x y : num) : num :=
  match x, y with
  | Fin a, Fin b => if Qeq_bool b 0 then num_div x y else round64 (a / b)
  | _, _ => num_div x y
  end.

(** The literal [n/d] of the source, as the number the language reads it
    as. *)
Definition decimal (n : Z) (d : positive) : num := round64 (n # d).

(** The locals [belowHeight], [inRangeHeight] and [aboveHeight] of the hook
    of createVerticalStackedChart. *)
Definition belowHeight (d : ClinicData) (chart : ChartObject) : num :=
  mul (div (belowRange (timeInRange d)) (lit 100)) (stackedTotal chart).

Definition inRangeHeight (d : ClinicData) (chart : ChartObject) : num :=
  mul (div (inRange (timeInRange d)) (lit 100)) (stackedTotal chart).

Definition aboveHeight (d : ClinicData) (chart : ChartObject) : num :=
  mul (div (aboveRange (timeInRange d)) (lit 100)) (stackedTotal chart).

End Binary64.

(** * Properties *)

(** A closed, decidable statement, settled by evaluating it. *)
Ltac by_evaluation :=
  cbv zeta; apply (bool_decide_unpack _); vm_compute; reflexivity.

(** ** Numbers *)

Lemma num_add_finite x y q :
  (x + y)%num = Fin q -> exists a b, x = Fin a /\ y = Fin b /\ q = (a + b)%Qc.
Proof.
  destruct x, y; simpl; intros E; try discriminate.
  injection E as <-. eauto.
Qed.

Lemma isFinite_Fin x : isFinite x = true -> exists q, x = Fin q.
Proof. destruct x; try discriminate; eauto. Qed.

Lemma lit_this z : this (Q2Qc (inject_Z z)) = inject_Z z.
Proof.
  simpl. apply Qred_identity. simpl. apply Z.gcd_1_r.
Qed.

(** An integer below 10^21 prints as its decimal numeral, whatever the
    runtime. *)
Lemma Number_toString_lit `{JsRuntime} z :
  (Z.abs z < 10 ^ 21)%Z -> Number_toString (lit z) = pretty z.
Proof.
  intros Hz. unfold Number_toString, lit.
  rewrite lit_this. simpl Qnum. simpl Qden.
  case_decide as Hd; [reflexivity|].
  exfalso. apply Hd. split; [reflexivity | exact Hz].
Qed.

(** Division by a non-zero integer literal keeps a finite number finite. *)
Lemma div_lit_finite q z :
  z <> 0%Z -> (Fin q / lit z)%num = Fin (q / Q2Qc (inject_Z z)).
Proof.
  intros Hz. unfold num_div, lit.
  destruct (Q2Qc (inject_Z z) ?= 0)%Qc eqn:E; try reflexivity.
  exfalso. apply Hz.
  unfold Qccompare in E. rewrite lit_this in E.
  apply Qeq_alt in E. unfold Qeq in E. simpl in E. lia.
Qed.

(** ** Rounding to binary64 *)

Section Rounding.
Local Open Scope Q_scope.

(** The nearest integer is at most a half away. *)
Lemma nearestEven_error m :
  Qabs (inject_Z (Binary64.nearestEven m) - m) <= 1 # 2.
Proof.
  unfold Binary64.nearestEven.
  pose proof (Qfloor_le m) as Hlo. pose proof (Qlt_floor m) as Hhi.
  rewrite inject_Z_plus in Hhi. change (inject_Z 1) with 1 in Hhi.
  apply Qabs_Qle_condition.
  destruct (Qcompare_spec (m - inject_Z (Qfloor m)) (1 # 2)) as [E|E|E];
    [destruct (Z.even (Qfloor m))|..];
    rewrite ?inject_Z_plus; change (inject_Z 1) with 1; lra.
Qed.

Lemma two_power_pos k : 0 < 2 ^ k.
Proof. apply Qpower_0_lt. reflexivity. Qed.

Lemma two_power_succ k : 2 ^ (k + 1) == 2 * 2 ^ k.
Proof. rewrite Qpower_plus by discriminate. change (2 ^ 1) with 2. ring. Qed.

Lemma two_power_Z n : (0 <= n)%Z -> inject_Z (2 ^ n) == 2 ^ n.
Proof. intros Hn. now rewrite Zpower_Qpower. Qed.

(** [Qlog2 x] is the exponent of the leading bit of [x]. *)
Lemma Qlog2_spec x :
  0 < x -> 2 ^ Binary64.Qlog2 x <= x /\ x < 2 ^ (Binary64.Qlog2 x + 1).
Proof.
  intros Hx. destruct x as [p q]. unfold Binary64.Qlog2. cbn [Qnum Qden].
  assert (0 < p)%Z as Hp by (unfold Qlt in Hx; simpl in Hx; lia).
  destruct (Z.log2_spec p Hp) as [Hp1 Hp2].
  destruct (Z.log2_spec (Z.pos q) (Pos2Z.is_pos q)) as [Hq1 Hq2].
  pose proof (Z.log2_nonneg p) as Hlp.
  pose proof (Z.log2_nonneg (Z.pos q)) as Hlq.
  set (lp := Z.log2 p) in *. set (lq := Z.log2 (Z.pos q)) in *.
  assert (2 ^ lp <= inject_Z p) as A1.
  { rewrite <- two_power_Z by lia. now rewrite <- Zle_Qle. }
  assert (inject_Z p < 2 * 2 ^ lp) as A2.
  { rewrite <- two_power_succ, <- two_power_Z by lia. rewrite <- Zlt_Qlt.
    now rewrite <- Z.add_1_r in Hp2. }
  assert (2 ^ lq <= inject_Z (Z.pos q)) as A3.
  { rewrite <- two_power_Z by lia. now rewrite <- Zle_Qle. }
  assert (inject_Z (Z.pos q) < 2 * 2 ^ lq) as A4.
  { rewrite <- two_power_succ, <- two_power_Z by lia. rewrite <- Zlt_Qlt.
    now rewrite <- Z.add_1_r in Hq2. }
  assert (2 ^ lp == 2 ^ (lp - lq) * 2 ^ lq) as A5.
  { rewrite <- Qpower_plus by discriminate.
    now replace (lp - lq + lq)%Z with lp by lia. }
  assert (0 < inject_Z (Z.pos q)) as A7 by (rewrite <- (Zlt_Qlt 0); lia).
  pose proof (two_power_pos (lp - lq)) as P1.
  pose proof (two_power_pos lq) as P2.
  assert ((p # q) * inject_Z (Z.pos q) == inject_Z p) as A8.
  { rewrite (Qmake_Qdiv p q). field. lra. }
  set (X := p # q) in *. set (P := inject_Z p) in *.
  set (D := inject_Z (Z.pos q)) in *.
  set (K := 2 ^ (lp - lq)) in *. set (L := 2 ^ lq) in *.
  set (M := 2 ^ lp) in *.
  destruct (Qle_bool K X) eqn:T.
  - apply Qle_bool_iff in T. split; [exact T|].
    rewrite two_power_succ. fold K.
    apply Qnot_le_lt. intros C.
    assert (2 * K * D <= X * D) by (apply Qmult_le_compat_r; lra).
    assert (2 * K * L <= 2 * K * D) by (apply Qmult_le_l; lra).
    lra.
  - assert (X < K) as T'.
    { apply Qnot_le_lt. intros C. apply Qle_bool_iff in C. congruence. }
    replace (lp - lq - 1 + 1)%Z with (lp - lq)%Z by lia. fold K.
    split; [|exact T'].
    assert (K == 2 * 2 ^ (lp - lq - 1)) as A9.
    { unfold K. rewrite <- two_power_succ.
      now replace (lp - lq - 1 + 1)%Z with (lp - lq)%Z by lia. }
    pose proof (two_power_pos (lp - lq - 1)) as P3.
    set (K' := 2 ^ (lp - lq - 1)) in *.
    apply Qnot_lt_le. intros C.
    assert (X * D < K' * D) by (apply Qmult_lt_compat_r; lra).
    assert (K' * D < K' * (2 * L)) by (apply Qmult_lt_l; lra).
    assert (K * L == 2 * K' * L) by (rewrite A9; ring).
    lra.
Qed.

Lemma u_double : 2 ^ (-52) == 2 * Binary64.u.
Proof. reflexivity. Qed.

Lemma eta_double : 2 ^ (-1074) == 2 * Binary64.eta.
Proof. reflexivity. Qed.

Lemma u_pos : 0 < Binary64.u.
Proof. reflexivity. Qed.

Lemma eta_pos : 0 < Binary64.eta.
Proof. reflexivity. Qed.

(** Half of the last bit kept is within the error allowed. *)
Lemma lastBit_half x :
  ~ x == 0 ->
  2 ^ Binary64.lastBit x <= 2 * (Binary64.u * Qabs x + Binary64.eta).
Proof.
  intros Hx. unfold Binary64.lastBit.
  assert (0 < Qabs x) as Hpos.
  { apply Qnot_le_lt. intros C. apply Hx.
    apply Qabs_Qle_condition in C as [C1 C2]. lra. }
  destruct (Qlog2_spec (Qabs x) Hpos) as [Hlo _].
  pose proof u_pos as Hu. pose proof eta_pos as He.
  set (k := Binary64.Qlog2 (Qabs x)) in *.
  destruct (Z.max_spec (k - 52) (-1074)) as [[_ ->]|[_ ->]].
  - rewrite eta_double.
    assert (0 <= Binary64.u * Qabs x) by (apply Qmult_le_0_compat; lra). lra.
  - replace (k - 52)%Z with (k + -52)%Z by lia.
    rewrite Qpower_plus by discriminate. rewrite u_double.
    assert (2 ^ k * Binary64.u <= Qabs x * Binary64.u)
      by (apply Qmult_le_compat_r; lra).
    lra.
Qed.

Lemma nearest_error x :
  ~ x == 0 ->
  Qabs (Binary64.nearest x - x) <= Binary64.u * Qabs x + Binary64.eta.
Proof.
  intros Hx. pose proof (lastBit_half x Hx) as Hb.
  unfold Binary64.nearest. pose proof (two_power_pos (Binary64.lastBit x)) as HE.
  set (E := 2 ^ Binary64.lastBit x) in *.
  pose proof (nearestEven_error (x / E)) as Hn.
  set (n := inject_Z (Binary64.nearestEven (x / E))) in *.
  assert (n * E - x == (n - x / E) * E) as -> by (field; lra).
  rewrite Qabs_Qmult, (Qabs_pos E) by lra.
  assert (Qabs (n - x / E) * E <= (1 # 2) * E)
    by (apply Qmult_le_compat_r; lra).
  lra.
Qed.

Lemma Q2Qc_this r : this (Q2Qc r) == r.
Proof. apply Qred_correct. Qed.

Lemma Qabs_bounds x y : Qabs x <= y -> - y <= x /\ x <= y.
Proof. apply Qabs_Qle_condition. Qed.

(** One rounding: a number of magnitude at most 2^1023 rounds to a finite
    number, with a relative error of at most [u], or an absolute error of at
    most [eta] where the result is subnormal. *)
Lemma round64_error x :
  Qabs x <= 2 ^ 1023 ->
  exists q : Qc,
    Binary64.round64 x = Fin q /\
    Qabs (q - x) <= Binary64.u * Qabs x + Binary64.eta.
Proof.
  intros Hx. unfold Binary64.round64.
  pose proof u_pos as Hu. pose proof eta_pos as He.
  pose proof (Qabs_nonneg x) as Ha.
  destruct (Qeq_bool x 0) eqn:Z0.
  - apply Qeq_bool_iff in Z0. exists (Q2Qc 0). split; [reflexivity|].
    rewrite Q2Qc_this, Z0.
    change (Qabs (0 - 0)) with 0. change (Qabs 0) with 0. lra.
  - assert (~ x == 0) as Hne.
    { intros C. apply Qeq_bool_iff in C. congruence. }
    pose proof (nearest_error x Hne) as Hn.
    assert (Qle_bool (2 ^ 1024) (Qabs (Binary64.nearest x)) = false) as ->.
    { destruct (Qle_bool (2 ^ 1024) (Qabs (Binary64.nearest x))) eqn:T;
        [|reflexivity].
      exfalso. apply Qle_bool_iff in T.
      pose proof (Qabs_triangle (Binary64.nearest x - x) x) as Ht.
      assert (Binary64.nearest x - x + x == Binary64.nearest x) as Hs by ring.
      rewrite Hs in Ht.
      assert (2 ^ 1024 == 2 * 2 ^ 1023) as Hd by reflexivity.
      assert (1 <= 2 ^ 1023) as H1 by (vm_compute; discriminate).
      assert (Binary64.u * Qabs x <= (1 # 2) * Qabs x) as Hux.
      { apply Qmult_le_compat_r; [|exact Ha]. vm_compute; discriminate. }
      assert (Binary64.eta < 1 # 2) by (vm_compute; reflexivity).
      set (big := 2 ^ 1023) in *. set (top := 2 ^ 1024) in *.
      lra. }
    exists (Q2Qc (Binary64.nearest x)). split; [reflexivity|].
    now rewrite Q2Qc_this.
Qed.

(** The rounding at numbers whose binary64 value is known: 1/10 and 1/3;
    0.1 + 0.2, which is 0.30000000000000004; the ties 2^53 + 1 and
    2^53 + 3, which go to the even neighbour; halves of the least step
    2^-1074; and the overflow from 2^1024 - 2^970 on. *)
Example round64_known_values :
  Binary64.round64 (1 # 10) = Fin (Q2Qc (3602879701896397 # 36028797018963968)) /\
  Binary64.round64 (1 # 3) = Fin (Q2Qc (6004799503160661 # 18014398509481984)) /\
  Binary64.add (Binary64.decimal 1 10) (Binary64.decimal 2 10)
  = Fin (Q2Qc (1351079888211149 # 4503599627370496)) /\
  Binary64.add (lit (2 ^ 53)) (lit 1) = lit (2 ^ 53) /\
  Binary64.add (lit (2 ^ 53 + 2)) (lit 1) = lit (2 ^ 53 + 4) /\
  Binary64.round64 (2 ^ (-1075)) = lit 0 /\
  Binary64.round64 (3 * 2 ^ (-1075)) = Fin (Q2Qc (2 ^ (-1073))) /\
  Binary64.round64 (2 ^ 1024 - 2 ^ 970) = PosInf /\
  Binary64.round64 (2 ^ 1024 - 2 ^ 970 - 1) = Fin (Q2Qc (2 ^ 1024 - 2 ^ 971)) /\
  Binary64.mul (lit (- 2 ^ 600)) (lit (2 ^ 600)) = NegInf.
Proof. repeat split; by_evaluation. Qed.

(** ** The heights of the stacked segments *)

(** The height of one segment, computed as the hook computes it, against
    the exact [x / 100 * h]: two roundings. *)
Lemma height_error (x h : Qc) :
  0 <= x -> x <= 100 -> 0 <= h -> h <= 2 ^ 1022 ->
  exists p : Qc,
    Binary64.mul (Binary64.div (Fin x) (lit 100)) (Fin h) = Fin p /\
    Qabs (p - x / 100 * h)
    <= (2 * Binary64.u + Binary64.u * Binary64.u) * (x / 100 * h)
       + Binary64.eta * (1 + h + Binary64.u * h).
Proof.
  intros Hx0 Hx1 Hh0 Hh1.
  pose proof u_pos as Hu. pose proof eta_pos as He.
  assert (Binary64.u <= 1 # 4) as Hu4 by (vm_compute; discriminate).
  assert (Binary64.eta <= 1 # 4) as He4 by (vm_compute; discriminate).
  assert (1 <= 2 ^ 1023) as Hbig by (vm_compute; discriminate).
  assert (2 ^ 1023 == 2 * 2 ^ 1022) as Hdouble by reflexivity.
  unfold Binary64.div, lit. rewrite lit_this.
  change (Qeq_bool (inject_Z 100) 0) with false. cbv iota.
  change (inject_Z 100) with 100.
  set (t := x / 100).
  assert (0 <= t /\ t <= 1) as [Ht0 Ht1].
  { unfold t. split.
    - apply Qle_shift_div_l; [reflexivity|]. lra.
    - apply Qle_shift_div_r; [reflexivity|]. lra. }
  destruct (round64_error t) as (q & -> & Hq).
  { rewrite Qabs_pos by exact Ht0. lra. }
  rewrite (Qabs_pos t) in Hq by exact Ht0.
  apply Qabs_bounds in Hq as [Hq1 Hq2].
  assert (Qabs q <= t + Binary64.u * t + Binary64.eta) as Ha.
  { apply Qabs_Qle_condition. split; [|lra].
    assert (0 <= Binary64.u * t) by (apply Qmult_le_0_compat; lra). lra. }
  assert (Binary64.u * t <= (1 # 4) * t) as Hut
    by (apply Qmult_le_compat_r; lra).
  unfold Binary64.mul.
  assert (Qabs (q * h) == Qabs q * h) as Hqh.
  { rewrite Qabs_Qmult, (Qabs_pos h) by exact Hh0. reflexivity. }
  assert (Qabs q * h <= 2 * h) as Hqh2.
  { apply Qmult_le_compat_r; [lra | exact Hh0]. }
  destruct (round64_error (q * h)) as (p & -> & Hp).
  { rewrite Hqh. set (big := 2 ^ 1023) in *. set (half := 2 ^ 1022) in *.
    lra. }
  exists p. split; [reflexivity|].
  rewrite Hqh in Hp. apply Qabs_bounds in Hp as [Hp1 Hp2].
  assert (Qabs q * h <= (t + Binary64.u * t + Binary64.eta) * h) as Hah
    by (apply Qmult_le_compat_r; assumption).
  assert (Binary64.u * (Qabs q * h)
          <= Binary64.u * ((t + Binary64.u * t + Binary64.eta) * h)) as Huah
    by (apply Qmult_le_l; lra).
  assert ((q - t) * h <= (Binary64.u * t + Binary64.eta) * h) as Hd2
    by (apply Qmult_le_compat_r; [lra | exact Hh0]).
  assert (- (Binary64.u * t + Binary64.eta) * h <= (q - t) * h) as Hd1
    by (apply Qmult_le_compat_r; [lra | exact Hh0]).
  apply Qabs_Qle_condition.
  set (U := Binary64.u) in *. set (N := Binary64.eta) in *.
  set (A := Qabs q) in *. set (big := 2 ^ 1022) in *.
  clearbody big U N A t.
  split; lra.
Qed.

Ltac rounding_constants :=
  let vu := eval vm_compute in Binary64.u in
  let ve := eval vm_compute in Binary64.eta in
  change Binary64.u with vu in *; change Binary64.eta with ve in *.

(** C6. When the three time-in-range percentages are not negative and sum
    to exactly 100, and the height H of the chart area is between 0 and
    2^1022, the three segment heights value/100 * H, computed in binary64 as
    the hook computes them, are finite and sum to H within rounding: their
    sum differs from H by at most 3 * 2^-53 * H + 3 * 2^-1075, and their sum
    computed in binary64, (below + in range) + above, by at most
    6 * 2^-53 * H + 6 * 2^-1075. *)
Theorem stacked_heights_sum (d : ClinicData) (chart : ChartObject)
    (b i a h : Qc) :
  belowRange (timeInRange d) = Fin b ->
  inRange (timeInRange d) = Fin i ->
  aboveRange (timeInRange d) = Fin a ->
  area_height (chartArea chart) = Fin h ->
  0 <= b -> 0 <= i -> 0 <= a -> b + i + a == 100 ->
  0 <= h -> h <= 2 ^ 1022 ->
  exists hb hi ha s : Qc,
    Binary64.belowHeight d chart = Fin hb /\
    Binary64.inRangeHeight d chart = Fin hi /\
    Binary64.aboveHeight d chart = Fin ha /\
    Qabs (hb + hi + ha - h) <= 3 * Binary64.u * h + 3 * Binary64.eta /\
    Binary64.add (Binary64.add (Fin hb) (Fin hi)) (Fin ha) = Fin s /\
    Qabs (s - h) <= 6 * Binary64.u * h + 6 * Binary64.eta.
Proof.
  intros Eb Ei Ea Eh Hb Hi Ha Hsum Hh0 Hh1.
  unfold Binary64.belowHeight, Binary64.inRangeHeight, Binary64.aboveHeight,
    stackedTotal.
  rewrite Eb, Ei, Ea, Eh.
  destruct (height_error b h) as (hb & -> & Bb); try assumption; [lra|].
  destruct (height_error i h) as (hi & -> & Bi); try assumption; [lra|].
  destruct (height_error a h) as (ha & -> & Ba); try assumption; [lra|].
  apply Qabs_bounds in Bb as [Bb1 Bb2], Bi as [Bi1 Bi2], Ba as [Ba1 Ba2].
  assert (b / 100 * h + i / 100 * h + a / 100 * h == h) as Hparts.
  { transitivity ((b + i + a) / 100 * h); [field|]. rewrite Hsum. field. }
  assert (0 <= b / 100 * h) as Tb.
  { apply Qmult_le_0_compat; [|exact Hh0]. apply Qle_shift_div_l; [reflexivity|]. lra. }
  assert (0 <= i / 100 * h) as Ti.
  { apply Qmult_le_0_compat; [|exact Hh0]. apply Qle_shift_div_l; [reflexivity|]. lra. }
  assert (0 <= a / 100 * h) as Ta.
  { apply Qmult_le_0_compat; [|exact Hh0]. apply Qle_shift_div_l; [reflexivity|]. lra. }
  assert (2 ^ 1023 == 2 * 2 ^ 1022) as Hdouble by reflexivity.
  assert (1 <= 2 ^ 1022) as Hbig by (vm_compute; discriminate).
  set (tb := b / 100 * h) in *. set (ti := i / 100 * h) in *.
  set (ta := a / 100 * h) in *. set (big := 2 ^ 1022) in *.
  set (top := 2 ^ 1023) in *.
  assert (exists s : Qc,
            Binary64.add (Binary64.add (Fin hb) (Fin hi)) (Fin ha) = Fin s /\
            Qabs (s - h) <= 6 * Binary64.u * h + 6 * Binary64.eta)
    as (s & Es & Bs).
  { unfold Binary64.add at 2.
    destruct (round64_error (hb + hi)) as (s1 & -> & B1).
    { apply Qabs_Qle_condition. change (2 ^ 1023) with top. rounding_constants. clearbody tb ti ta big top.
      split; lra. }
    assert (Qabs (hb + hi) <= h + 3 * Binary64.u * h + 3 * Binary64.eta) as A1.
    { apply Qabs_Qle_condition. change (2 ^ 1023) with top. rounding_constants. clearbody tb ti ta big top.
      split; lra. }
    apply Qabs_bounds in B1 as [B11 B12].
    unfold Binary64.add.
    destruct (round64_error (s1 + ha)) as (s & -> & B2).
    { apply Qabs_Qle_condition. change (2 ^ 1023) with top. rounding_constants.
      set (A := Qabs (hb + hi)) in *. clearbody tb ti ta big top A.
      split; lra. }
    assert (Qabs (s1 + ha) <= h + 5 * Binary64.u * h + 5 * Binary64.eta) as A2.
    { apply Qabs_Qle_condition. change (2 ^ 1023) with top. rounding_constants.
      set (A := Qabs (hb + hi)) in *. clearbody tb ti ta big top A.
      split; lra. }
    apply Qabs_bounds in B2 as [B21 B22].
    exists s. split; [reflexivity|].
    apply Qabs_Qle_condition. change (2 ^ 1023) with top. rounding_constants.
    set (A := Qabs (hb + hi)) in *. set (A' := Qabs (s1 + ha)) in *.
    clearbody tb ti ta big top A A'. split; lra. }
  exists hb, hi, ha, s. do 3 (split; [reflexivity|]).
  split; [|split; [exact Es | exact Bs]].
  apply Qabs_Qle_condition. change (2 ^ 1023) with top. rounding_constants.
  clearbody tb ti ta big top. split; lra.
Qed.

Lemma stacked_heights_sum_witness :
  let d := clinicDataOf 14 56 30 72 23 5 in
  let chart := chartOf (datasets (verticalStackedConfig d)) in
  exists hb hi ha s : Qc,
    Binary64.belowHeight d chart = Fin hb /\
    Binary64.inRangeHeight d chart = Fin hi /\
    Binary64.aboveHeight d chart = Fin ha /\
    Qabs (hb + hi + ha - 200) <= 3 * Binary64.u * 200 + 3 * Binary64.eta /\
    Binary64.add (Binary64.add (Fin hb) (Fin hi)) (Fin ha) = Fin s /\
    Qabs (s - 200) <= 6 * Binary64.u * 200 + 6 * Binary64.eta.
Proof.
  intros d chart.
  apply (stacked_heights_sum d chart (Q2Qc (inject_Z 14)) (Q2Qc (inject_Z 56))
           (Q2Qc (inject_Z 30)) (Q2Qc (inject_Z 200)));
    try reflexivity; vm_compute; discriminate.
Defined.

(** The rounding is there: for 14, 56 and 30 percent of a height of 200 the
    hook computes 28 + 2^-48, 112 + 2^-46 and 60, which sum to more than
    200; added in binary64 they give 200.00000000000003. *)
Example stacked_heights_rounded :
  let d := clinicDataOf 14 56 30 72 23 5 in
  let chart := chartOf (datasets (verticalStackedConfig d)) in
  Binary64.belowHeight d chart
  = Fin (Q2Qc (7881299347898369 # 281474976710656)) /\
  Binary64.inRangeHeight d chart
  = Fin (Q2Qc (7881299347898369 # 70368744177664)) /\
  Binary64.aboveHeight d chart = lit 60 /\
  Binary64.add
    (Binary64.add (Binary64.belowHeight d chart) (Binary64.inRangeHeight d chart))
    (Binary64.aboveHeight d chart)
  = Fin (Q2Qc (7036874417766401 # 35184372088832)).
Proof. repeat split; by_evaluation. Qed.

End Rounding.

(** ** The name of the exported image *)

Lemma append_cons x a b : String x a +:+ b = String x (a +:+ b).
Proof. reflexivity. Qed.

Lemma append_assoc a b c : (a +:+ b) +:+ c = a +:+ (b +:+ c).
Proof.
  induction a as [|x a IH]; [reflexivity|].
  rewrite !append_cons. now rewrite IH.
Qed.

Lemma length_append a b :
  String.length (a +:+ b) = (String.length a + String.length b)%nat.
Proof.
  induction a as [|c a IH]; [reflexivity|].
  rewrite append_cons. simpl. now rewrite IH.
Qed.

Lemma replaceColonDot_append a b :
  replaceColonDot (a +:+ b) = replaceColonDot a +:+ replaceColonDot b.
Proof.
  induction a as [|c a IH]; [reflexivity|].
  rewrite append_cons. cbn [replaceColonDot]. now rewrite IH, append_cons.
Qed.

Lemma substring_prefix a b : substring 0 (String.length a) (a +:+ b) = a.
Proof.
  induction a as [|c a IH].
  - destruct b; reflexivity.
  - rewrite append_cons. simpl. now rewrite IH.
Qed.

(** slice(0, -5) takes five characters off the end. *)
Lemma slice_drop_suffix body tail :
  String.length tail = 5%nat -> slice (body +:+ tail) 0 (-5) = body.
Proof.
  intros Htail. unfold slice. rewrite length_append, Htail.
  repeat case_decide; try lia.
  replace (Z.to_nat (Z.min 0 _)) with 0%nat by lia.
  replace (Z.to_nat _) with (String.length body) by lia.
  apply substring_prefix.
Qed.

Lemma length_digits w n : String.length (digits w n) = w.
Proof.
  revert n. induction w as [|w IH]; intros n; [reflexivity|].
  cbn [digits]. rewrite length_append, IH. simpl. lia.
Qed.

Lemma digit_plain n : digit n <> ":"%char /\ digit n <> "."%char.
Proof.
  unfold digit.
  assert (0 <= n mod 10 < 10)%Z as Hr by (apply Z.mod_pos_bound; lia).
  destruct (Z.to_nat (n mod 10)) as [|k] eqn:E; [split; discriminate|].
  do 9 (destruct k as [|k]; [split; discriminate|]). lia.
Qed.

Lemma replaceColonDot_digits w n : replaceColonDot (digits w n) = digits w n.
Proof.
  revert n. induction w as [|w IH]; intros n; [reflexivity|].
  cbn [digits]. rewrite replaceColonDot_append, IH. cbn [replaceColonDot].
  destruct (digit_plain n). case_decide; [tauto | reflexivity].
Qed.

Lemma replaceColonDot_yearString y :
  replaceColonDot (yearString y) = yearString y.
Proof.
  unfold yearString. repeat case_decide;
    rewrite ?replaceColonDot_append, ?replaceColonDot_digits; reflexivity.
Qed.

Lemma toISOString_split (d : DateTime) :
  toISOString d
  = isoSeconds d +:+ ("." +:+ digits 3 (milliseconds d) +:+ "Z").
Proof.
  unfold toISOString, isoSeconds. rewrite !append_assoc. reflexivity.
Qed.


Example downloadName_example :
  downloadName {| year := 2024; month := 1; day := 6; hours := 15;
                  minutes := 0; seconds := 7; milliseconds := 42 |}
  = "clinic-outcomes-2024-01-06T15-00-07.png".
Proof. reflexivity. Qed.

(** ** What the overlays draw *)

Lemma emitted_app s c out : drawn (s c) = drawn c ++ out -> emitted s c = out.
Proof. intros E. unfold emitted. rewrite E. apply drop_app_length. Qed.

(** Runs the statements of a hook on a context whose fields are variables. *)
Ltac run_statements :=
  cbv [statements forEach fold_left imap compose
       fillText stroke fill draw beginPath moveTo lineTo arc
       set_fillStyle set_strokeStyle set_font set_textAlign set_textBaseline
       set_lineWidth set_path
       fillStyle strokeStyle font textAlign textBaseline lineWidth path drawn
       fst snd].

Ltac emitted_by_running :=
  apply emitted_app; run_statements;
  match goal with c : Ctx |- _ => destruct c end;
  cbn [app]; rewrite <- ?app_assoc; reflexivity.

Lemma afterDraw_stacked_emitted d chart c :
  emitted (afterDraw_stacked d chart) c =
  let area := chartArea chart in
  let x := stackedLabelX chart in
  let style := textStyle "#333" "bold 14px Arial" "left" c in
  [ Texted "2%"
      {| px := x; py := (area_bottom area - belowHeight d chart / lit 2)%num |}
      style;
    Texted "82%"
      {| px := x;
         py := (area_bottom area - belowHeight d chart
                  - inRangeHeight d chart / lit 2)%num |}
      style;
    Texted "1%" {| px := x; py := (area_top area + lit 15)%num |} style;
    Texted "15%"
      {| px := x;
         py := (area_bottom area - belowHeight d chart - inRangeHeight d chart
                  - aboveHeight d chart * decimal 3 10)%num |}
      style ].
Proof. unfold afterDraw_stacked, textStyle. emitted_by_running. Qed.

Lemma SrcApp_afterDraw_stacked_emitted d chart c :
  emitted (SrcApp.afterDraw_stacked d chart) c =
  let area := chartArea chart in
  let x := SrcApp.stackedLabelX chart in
  let style := textStyle "#333" "bold 12px Arial" "left" c in
  [ Texted "2%"
      {| px := x; py := (area_bottom area - belowHeight d chart / lit 2)%num |}
      style;
    Texted "82%"
      {| px := x;
         py := (area_bottom area - belowHeight d chart
                  - inRangeHeight d chart / lit 2)%num |}
      style;
    Texted "15%"
      {| px := x;
         py := (area_bottom area - belowHeight d chart - inRangeHeight d chart
                  - aboveHeight d chart / lit 3)%num |}
      style;
    Texted "1%" {| px := x; py := (area_top area + lit 25)%num |} style ].
Proof. unfold SrcApp.afterDraw_stacked, textStyle. emitted_by_running. Qed.

(** ** The labels of the stacked bar *)

Lemma num_sub_0 x : (x - lit 0)%num = x.
Proof.
  destruct x as [q| | |]; try reflexivity.
  unfold num_sub, num_neg, num_add, lit. f_equal.
  change (Q2Qc (inject_Z 0)) with 0%Qc. ring.
Qed.

(** C2, as the specification has it, fails: for the data the component
    starts with (2, 82 and 15 percent) in a chart area from y = 10 to
    y = 210, the label of the above-range segment is drawn at y = 33, and
    the middle of that segment is y = 27. *)
Lemma stacked_above_label_off_centre :
  let d := sampleData in
  let chart := chartOf (datasets (verticalStackedConfig d)) in
  labels (emitted (afterDraw_stacked d chart) freshCtx) !! 3%nat
  = Some {| text := "15%";
            anchor := {| px := lit 102; py := lit 33 |};
            connector := [] |} /\
  segmentCentre (area_bottom (chartArea chart))
    (belowHeight d chart + inRangeHeight d chart)%num (aboveHeight d chart)
  = lit 27.
Proof. split; by_evaluation. Qed.

(** C2, amended.  The datasets are stacked in the order below range, in
    range, above range, very high (a constant 1); a percentage v becomes the
    height v/100 * H of the chart area; the labels of the below-range and
    in-range segments are anchored at the middle of their segment; the label
    of the above-range segment is anchored three tenths of its height above
    its lower edge (a third in the copy under src/app), and the very-high
    label 15 pixels below the top of the chart area (25 in that copy). *)
Theorem stacked_labels_layout (d : ClinicData) (chart : ChartObject) (c : Ctx) :
  let area := chartArea chart in
  let bottom := area_bottom area in
  let hB := belowHeight d chart in
  let hI := inRangeHeight d chart in
  let hA := aboveHeight d chart in
  data <$> datasets (verticalStackedConfig d)
  = [ [belowRange (timeInRange d)]; [inRange (timeInRange d)];
      [aboveRange (timeInRange d)]; [lit 1] ] /\
  (hB = belowRange (timeInRange d) / lit 100 * area_height area /\
   hI = inRange (timeInRange d) / lit 100 * area_height area /\
   hA = aboveRange (timeInRange d) / lit 100 * area_height area)%num /\
  textAnchors (labels (emitted (afterDraw_stacked d chart) c))
  = [ ("2%", {| px := stackedLabelX chart; py := segmentCentre bottom (lit 0) hB |});
      ("82%", {| px := stackedLabelX chart; py := segmentCentre bottom hB hI |});
      ("1%", {| px := stackedLabelX chart; py := (area_top area + lit 15)%num |});
      ("15%", {| px := stackedLabelX chart;
                 py := (bottom - hB - hI - hA * decimal 3 10)%num |}) ] /\
  textAnchors (labels (emitted (SrcApp.afterDraw_stacked d chart) c))
  = [ ("2%", {| px := SrcApp.stackedLabelX chart;
                py := segmentCentre bottom (lit 0) hB |});
      ("82%", {| px := SrcApp.stackedLabelX chart;
                 py := segmentCentre bottom hB hI |});
      ("15%", {| px := SrcApp.stackedLabelX chart;
                 py := (bottom - hB - hI - hA / lit 3)%num |});
      ("1%", {| px := SrcApp.stackedLabelX chart;
                py := (area_top area + lit 25)%num |}) ].
Proof.
  intros area bottom hB hI hA.
  split; [reflexivity|]. split; [repeat split|].
  rewrite afterDraw_stacked_emitted, SrcApp_afterDraw_stacked_emitted.
  unfold segmentCentre. rewrite !num_sub_0. split; reflexivity.
Qed.

(** C10. The texts of the stacked-bar overlay are the constants "2%",
    "82%", "1%" and "15%" (in the order they are drawn), whatever the data:
    for two snapshots and one chart geometry the texts and the x coordinates
    of the anchors are the same, and only the y coordinates are computed
    from the percentages.  The copy under src/app draws the same four
    constants. *)
Theorem stacked_label_text_constant (d1 d2 : ClinicData) (chart : ChartObject)
    (c1 c2 : Ctx) :
  let l1 := labels (emitted (afterDraw_stacked d1 chart) c1) in
  let l2 := labels (emitted (afterDraw_stacked d2 chart) c2) in
  text <$> l1 = ["2%"; "82%"; "1%"; "15%"] /\
  text <$> l2 = text <$> l1 /\
  (px ∘ anchor) <$> l2 = (px ∘ anchor) <$> l1 /\
  text <$> labels (emitted (SrcApp.afterDraw_stacked d1 chart) c1)
  = ["2%"; "82%"; "15%"; "1%"] /\
  text <$> labels (emitted (SrcApp.afterDraw_stacked d2 chart) c2)
  = ["2%"; "82%"; "15%"; "1%"].
Proof.
  cbv zeta. rewrite !afterDraw_stacked_emitted, !SrcApp_afterDraw_stacked_emitted.
  repeat split.
Qed.

(** The y coordinates do depend on the data. *)
Example stacked_label_y_depends_on_data :
  let chart := chartOf [] in
  (py ∘ anchor) <$> labels (emitted (afterDraw_stacked sampleData chart) freshCtx)
  <> (py ∘ anchor)
       <$> labels (emitted (afterDraw_stacked (clinicDataOf 10 70 20 72 23 5) chart)
                     freshCtx).
Proof. by_evaluation. Qed.

(** ** The overlays of the copy under src/app *)

Lemma SrcApp_afterDraw_scale_emitted chart c :
  emitted (SrcApp.afterDraw_scale chart) c =
  let area := chartArea chart in
  let segmentWidth := ((area_right area - area_left area) / lit 5)%num in
  let tick t x :=
    Texted t {| px := x; py := (area_top area - lit 5)%num |}
      (textStyle "#666" "10px Arial" "center" c) in
  [ tick "40" (area_left area);
    tick "54" (area_left area + segmentWidth * lit 1)%num;
    tick "70" (area_left area + segmentWidth * lit 2)%num;
    tick "180" (area_left area + segmentWidth * lit 3)%num;
    tick "240" (area_left area + segmentWidth * lit 4)%num;
    tick "400" (area_right area) ].
Proof.
  unfold SrcApp.afterDraw_scale, textStyle.
  apply emitted_app. cbv [SrcApp.labelPositions]. run_statements.
  destruct c; cbn [app]; rewrite <- ?app_assoc; reflexivity.
Qed.

Lemma SrcApp_afterDraw_pie_emitted `{JsRuntime} chart c :
  emitted (SrcApp.afterDraw_pie chart) c =
  let cx := (width chart / lit 2)%num in
  let cy := (height chart / lit 2)%num in
  let style :=
    {| text_fillStyle := "#333"; text_font := "bold 14px Arial";
       text_textAlign := "center"; text_textBaseline := textBaseline c |} in
  let one t angle x y :=
    [ Stroked
        [ MoveTo {| px := (cx + Math_cos angle * lit 80)%num;
                    py := (cy + Math_sin angle * lit 80)%num |};
          LineTo {| px := x; py := y |} ]
        "#666" (lit 1);
      Texted t {| px := x; py := (y - lit 5)%num |} style ] in
  one "72%" Math_PI (cx - lit 80)%num (cy - lit 20)%num
    ++ one "23%" (lit 0) (cx + lit 80)%num (cy + lit 10)%num
    ++ one "5%" (Math_PI / lit 2 + decimal 3 10)%num
         (cx + lit 20)%num (cy + lit 80)%num.
Proof.
  cbv zeta. unfold SrcApp.afterDraw_pie.
  apply emitted_app.
  cbv [SrcApp.pieLabels SrcApp.pie_text SrcApp.pie_angle SrcApp.pie_x SrcApp.pie_y].
  run_statements.
  destruct c; cbn [app]; rewrite <- ?app_assoc; reflexivity.
Qed.

(** ** The ticks of the scale chart *)

Lemma afterDraw_scale_emitted `{JsRuntime} chart c :
  emitted (afterDraw_scale chart) c =
  let area := chartArea chart in
  let w := scaleTotalWidth chart in
  let tick (v : Z) (p : num) :=
    Texted (pretty v)
      {| px := (area_left area + w * p)%num; py := (area_top area - lit 8)%num |}
      (textStyle "#666" "11px Arial" "center" c) in
  let divider (p : num) :=
    Stroked
      [ MoveTo {| px := (area_left area + w * p)%num; py := area_top area |};
        LineTo {| px := (area_left area + w * p)%num; py := area_bottom area |} ]
      "#ffffff" (lit 1) in
  [ tick 40%Z (lit 0); tick 54%Z (lit 14 / lit 360)%num;
    tick 70%Z (lit 30 / lit 360)%num; tick 180%Z (lit 140 / lit 360)%num;
    tick 240%Z (lit 200 / lit 360)%num; tick 400%Z (lit 1);
    divider (lit 14 / lit 360)%num; divider (lit 140 / lit 360)%num;
    divider (lit 1);
    Texted "mg/dL"
      {| px := (area_left area + w / lit 2)%num;
         py := (area_top area - lit 25)%num |}
      (textStyle "#999" "10px Arial" "center" c) ].
Proof.
  unfold afterDraw_scale, textStyle.
  apply emitted_app. cbv [ranges dividerLines value position]. run_statements.
  rewrite !Number_toString_lit by (vm_compute; reflexivity).
  destruct c; cbn [app]; rewrite <- ?app_assoc; reflexivity.
Qed.

Lemma ranges_positions :
  position <$> ranges
  = (fun before => before / lit 360)%num <$> cumulative (lit 0) segmentWidths.
Proof. by_evaluation. Qed.

Lemma ranges_fractions :
  position <$> ranges
  = Fin <$> [ Q2Qc 0; Q2Qc (14 # 360); Q2Qc (30 # 360); Q2Qc (140 # 360);
              Q2Qc (200 # 360); Q2Qc 1 ].
Proof. by_evaluation. Qed.

Lemma tick_monotone (l w p q : Qc) :
  (0 <= w)%Qc -> (p <= q)%Qc ->
  num_le (Fin l + Fin w * Fin p)%num (Fin l + Fin w * Fin q)%num.
Proof.
  intros Hw Hpq. simpl.
  apply Qcplus_le_compat; [apply Qcle_refl|].
  rewrite (Qcmult_comm w p), (Qcmult_comm w q).
  now apply Qcmult_le_compat_r.
Qed.

Lemma scale_ticks_positions `{JsRuntime} chart c :
  let area := chartArea chart in
  (px ∘ anchor) <$> take 6 (labels (emitted (afterDraw_scale chart) c))
  = (fun p => (area_left area + (area_right area - area_left area) * p)%num)
      <$> (position <$> ranges).
Proof. cbv zeta. rewrite afterDraw_scale_emitted. reflexivity. Qed.

Ltac Qc_as_Q :=
  unfold Qcle, Qclt, Qcdiv, Qcminus, Qcplus, Qcmult, Qcinv, Qcopp, Q2Qc in *;
  cbn [this] in *; rewrite ?Qred_correct in *.

Lemma SrcApp_tick_monotone (l r : Qc) :
  (l <= r)%Qc ->
  StronglySorted num_le
    [ Fin l; (Fin l + (Fin r - Fin l) / lit 5 * lit 1)%num;
      (Fin l + (Fin r - Fin l) / lit 5 * lit 2)%num;
      (Fin l + (Fin r - Fin l) / lit 5 * lit 3)%num;
      (Fin l + (Fin r - Fin l) / lit 5 * lit 4)%num; Fin r ].
Proof.
  intros Hlr. cbn [num_sub num_add num_neg].
  rewrite !div_lit_finite by discriminate.
  cbn [num_mul num_add lit].
  repeat constructor; cbn [num_le]; Qc_as_Q.
  all: change (inject_Z 5) with 5%Q; change (inject_Z 1) with 1%Q;
       change (inject_Z 2) with 2%Q; change (inject_Z 3) with 3%Q;
       change (inject_Z 4) with 4%Q; change (/ 5)%Q with (1 # 5)%Q; lra.
Qed.

(** C4, as the specification has it, fails on the copy under src/app: its
    scale chart has five datasets of 10 and its ticks are evenly spaced, so
    on a chart area from 20 to 380 the tick 54 stands at 92, where the
    widths 14, 16, 110, 60, 160 would put it at 34. *)
Lemma SrcApp_scale_ticks_not_proportional :
  let chart := chartOf [] in
  let area := chartArea chart in
  (px ∘ anchor) <$> labels (emitted (SrcApp.afterDraw_scale chart) freshCtx)
  = lit <$> [20; 92; 164; 236; 308; 380]%Z /\
  (fun before =>
     (area_left area + (area_right area - area_left area) * (before / lit 360))%num)
    <$> cumulative (lit 0) [lit 14; lit 16; lit 110; lit 60; lit 160]
  = lit <$> [20; 34; 50; 160; 220; 380]%Z.
Proof. split; by_evaluation. Qed.

(** C4, amended.  In the component the specification describes the six
    ticks are labelled 40, 54, 70, 180, 240 and 400 and stand at
    left + (right - left) * ((width before the tick) / 360), the widths being
    those of the five datasets, 14, 16, 110, 60 and 160 (so the fractions 0,
    14/360, 30/360, 140/360, 200/360 and 1).  In the copy under src/app the
    five datasets are 10 wide and the same six labels are evenly spaced: 40
    at left, 400 at right, and the four between at
    left + (right - left) / 5 * i.  In both, when the chart area is not
    inverted (left <= right), the positions do not decrease from left to
    right. *)
Theorem scale_ticks `{JsRuntime} (chart : ChartObject) (c : Ctx) :
  let area := chartArea chart in
  let totalWidth := (area_right area - area_left area)%num in
  let ticks := take 6 (labels (emitted (afterDraw_scale chart) c)) in
  let ticks' := labels (emitted (SrcApp.afterDraw_scale chart) c) in
  (segmentWidths = [lit 14; lit 16; lit 110; lit 60; lit 160] /\
   text <$> ticks = ["40"; "54"; "70"; "180"; "240"; "400"] /\
   (px ∘ anchor) <$> ticks
   = (fun before => (area_left area + totalWidth * (before / lit 360))%num)
       <$> cumulative (lit 0) segmentWidths) /\
  (concat (data <$> datasets SrcApp.horizontalScaleConfig)
   = [lit 10; lit 10; lit 10; lit 10; lit 10] /\
   text <$> ticks' = ["40"; "54"; "70"; "180"; "240"; "400"] /\
   (px ∘ anchor) <$> ticks'
   = [ area_left area;
       (area_left area + totalWidth / lit 5 * lit 1)%num;
       (area_left area + totalWidth / lit 5 * lit 2)%num;
       (area_left area + totalWidth / lit 5 * lit 3)%num;
       (area_left area + totalWidth / lit 5 * lit 4)%num;
       area_right area ]) /\
  (forall l r : Qc,
     area_left area = Fin l -> area_right area = Fin r -> (l <= r)%Qc ->
     StronglySorted num_le ((px ∘ anchor) <$> ticks) /\
     StronglySorted num_le ((px ∘ anchor) <$> ticks')).
Proof.
  intros area totalWidth ticks ticks'.
  pose proof (scale_ticks_positions chart c) as Hpx. cbv zeta in Hpx.
  fold area ticks in Hpx. fold totalWidth in Hpx.
  assert ((px ∘ anchor) <$> ticks'
          = [ area_left area;
              (area_left area + totalWidth / lit 5 * lit 1)%num;
              (area_left area + totalWidth / lit 5 * lit 2)%num;
              (area_left area + totalWidth / lit 5 * lit 3)%num;
              (area_left area + totalWidth / lit 5 * lit 4)%num;
              area_right area ]) as Hpx'.
  { subst ticks'. rewrite SrcApp_afterDraw_scale_emitted. reflexivity. }
  split; [|split].
  - split; [reflexivity|]. split.
    + subst ticks. rewrite afterDraw_scale_emitted. reflexivity.
    + rewrite Hpx, ranges_positions, <- list_fmap_compose. reflexivity.
  - split; [reflexivity|]. split; [|exact Hpx'].
    subst ticks'. rewrite SrcApp_afterDraw_scale_emitted. reflexivity.
  - intros l r Hl Hr Hlr. split.
    + rewrite Hpx, ranges_fractions, <- list_fmap_compose.
      subst totalWidth. rewrite Hl, Hr.
      apply StronglySorted_fmap with (R1 := Qcle).
      * intros p q Hpq. apply tick_monotone; [|exact Hpq].
        apply Qcle_minus_iff in Hlr. exact Hlr.
      * by_evaluation.
    + rewrite Hpx'. subst totalWidth. rewrite Hl, Hr.
      now apply SrcApp_tick_monotone.
Qed.

Lemma scale_ticks_witness :
  let chart := chartOf [] in
  StronglySorted num_le
    ((px ∘ anchor)
       <$> take 6 (labels (emitted (@afterDraw_scale EvalRuntime.runtime chart)
                             freshCtx))) /\
  StronglySorted num_le
    ((px ∘ anchor) <$> labels (emitted (SrcApp.afterDraw_scale chart) freshCtx)).
Proof.
  intros chart.
  apply (proj2 (proj2 (@scale_ticks EvalRuntime.runtime chart freshCtx)))
    with (l := Q2Qc 20) (r := Q2Qc 380);
    [reflexivity | reflexivity | by_evaluation].
Defined.

(** ** The labels of the pie *)

Lemma connectorTo_ends a line : last line = Some a -> connectorTo a line = line.
Proof. intros E. unfold connectorTo. now rewrite decide_True. Qed.

Lemma afterDraw_pieAt_emitted `{JsRuntime} rot chart c :
  let cx := (width chart / lit 2)%num in
  let cy := (height chart / lit 2)%num in
  let xs := pieData chart in
  let seg i := (element xs i / pieTotal xs * lit 2 * Math_PI)%num in
  let a0 := startAngle rot in
  let a1 := (a0 + seg 0%nat)%num in
  let a2 := (a1 + seg 1%nat)%num in
  let mid a i := (a + seg i / lit 2)%num in
  let style :=
    {| text_fillStyle := "#333"; text_font := "bold 12px Arial";
       text_textAlign := "center"; text_textBaseline := "middle" |} in
  let one i a extra elbow at_ :=
    [ Stroked
        [ MoveTo (onRay cx cy (mid a i) (lit 60));
          LineTo (onRay cx cy (mid a i) (lit 60 + extra)%num);
          LineTo elbow; LineTo at_; LineTo at_ ]
        "#666" (decimal 15 10);
      Filled [Arc at_ (lit 16) (lit 0) (lit 2 * Math_PI)%num] "white";
      Texted (percentLabel xs i) at_ style ] in
  emitted (afterDraw_pieAt rot chart) c
  = one 0%nat a0 (lit 25) {| px := (cx - lit 110)%num; py := (cy - lit 10)%num |}
      {| px := (cx - lit 140)%num; py := (cy - lit 10 - lit 5)%num |}
    ++ one 1%nat a1 (lit 30) {| px := (cx + lit 100)%num; py := (cy + lit 20)%num |}
         {| px := (cx + lit 130)%num; py := (cy + lit 20 - lit 5)%num |}
    ++ one 2%nat a2 (lit 25) {| px := (cx + lit 80)%num; py := (cy + lit 75)%num |}
         {| px := (cx + lit 110)%num; py := (cy + lit 90 - lit 5)%num |}.
Proof.
  cbv zeta. apply emitted_app. unfold afterDraw_pieAt.
  cbv [pieSegments pieSegmentStep segment_value segment_label onRay].
  run_statements.
  destruct c; cbn [app]; rewrite <- ?app_assoc; reflexivity.
Qed.

(** The three labels of the pie: the middle of a segment is its start plus
    half of its angle, and the start of a segment is where the one before
    ended. *)
Lemma afterDraw_pieAt_labels `{JsRuntime} rot chart c :
  let cx := (width chart / lit 2)%num in
  let cy := (height chart / lit 2)%num in
  let xs := pieData chart in
  let seg i := (element xs i / pieTotal xs * lit 2 * Math_PI)%num in
  let a0 := startAngle rot in
  let a1 := (a0 + seg 0%nat)%num in
  let a2 := (a1 + seg 1%nat)%num in
  labels (emitted (afterDraw_pieAt rot chart) c)
  = [ pieLabel cx cy (a0 + seg 0%nat / lit 2)%num (lit 25)
        {| px := (cx - lit 110)%num; py := (cy - lit 10)%num |}
        {| px := (cx - lit 140)%num; py := (cy - lit 10 - lit 5)%num |}
        (percentLabel xs 0);
      pieLabel cx cy (a1 + seg 1%nat / lit 2)%num (lit 30)
        {| px := (cx + lit 100)%num; py := (cy + lit 20)%num |}
        {| px := (cx + lit 130)%num; py := (cy + lit 20 - lit 5)%num |}
        (percentLabel xs 1);
      pieLabel cx cy (a2 + seg 2%nat / lit 2)%num (lit 25)
        {| px := (cx + lit 80)%num; py := (cy + lit 75)%num |}
        {| px := (cx + lit 110)%num; py := (cy + lit 90 - lit 5)%num |}
        (percentLabel xs 2) ].
Proof.
  cbv zeta. rewrite afterDraw_pieAt_emitted.
  cbn [app labels labelsFrom omap list_omap waypoint].
  rewrite !connectorTo_ends by reflexivity. reflexivity.
Qed.

Lemma Qc_minus_pos_lt (a b : Qc) : (0 < b)%Qc -> (a - b < a)%Qc.
Proof.
  intros Hb. apply Qclt_minus_iff.
  replace (a + - (a - b))%Qc with b by ring. exact Hb.
Qed.

Lemma Qc_plus_pos_lt (a b : Qc) : (0 < b)%Qc -> (a < a + b)%Qc.
Proof.
  intros Hb. apply Qclt_minus_iff.
  replace (a + b + - a)%Qc with b by ring. exact Hb.
Qed.

Lemma num_sub_lit_lt q z : (0 < z)%Z -> num_lt (Fin q - lit z)%num (Fin q).
Proof.
  intros Hz. simpl. apply Qc_minus_pos_lt.
  unfold Qclt. rewrite lit_this. unfold Qlt. simpl. lia.
Qed.

Lemma num_add_lit_lt q z : (0 < z)%Z -> num_lt (Fin q) (Fin q + lit z)%num.
Proof.
  intros Hz. simpl. apply Qc_plus_pos_lt.
  unfold Qclt. rewrite lit_this. unfold Qlt. simpl. lia.
Qed.

(** C5, as the specification has it, fails on the copy under src/app: its
    overlay does not read the data.  For the distribution 10, 20, 70 it
    still writes "72%", "23%" and "5%", and its anchors in a chart of 400 by
    300 are (120, 125), (280, 155) and (220, 225), not (60, 135), (330, 165)
    and (310, 235). *)
Lemma SrcApp_pie_labels_not_from_data :
  let chart := chartOf (datasets (pieConfig (clinicDataOf 2 82 15 10 20 70))) in
  pieData chart = [lit 10; lit 20; lit 70] /\
  textAnchors
    (labels (emitted (@SrcApp.afterDraw_pie EvalRuntime.runtime chart) freshCtx))
  = [ ("72%", {| px := lit 120; py := lit 125 |});
      ("23%", {| px := lit 280; py := lit 155 |});
      ("5%", {| px := lit 220; py := lit 225 |}) ] /\
  pieAnchors (width chart / lit 2)%num (height chart / lit 2)%num
  = [ {| px := lit 60; py := lit 135 |}; {| px := lit 330; py := lit 165 |};
      {| px := lit 310; py := lit 235 |} ].
Proof. repeat split; by_evaluation. Qed.

(** C5, amended.  In the component the specification describes, for every
    three values of the GMI distribution the pie overlay draws exactly three
    labels, whose text is the value followed by "%" and whose anchors are the
    fixed points (centerX - 140, centerY - 15), (centerX + 130, centerY + 15)
    and (centerX + 110, centerY + 85); neither the rotation nor the cosine
    and sine that place the connectors enter them.  For a chart of finite
    size the first anchor is left of the centre, the second right of it and
    the third right of and below it; for the distribution 72, 23, 5 the
    texts are "72%", "23%" and "5%".  In the copy under src/app the overlay
    draws three labels too, but with the constant texts "72%", "23%" and
    "5%" whatever the distribution, at the fixed points
    (centerX - 80, centerY - 25), (centerX + 80, centerY + 5) and
    (centerX + 20, centerY + 75); it has no rotation. *)
Theorem pie_labels_fixed_anchors `{JsRuntime} (rot : num) (chart : ChartObject)
    (c : Ctx) (o s p : num) :
  pieData chart = [o; s; p] ->
  let cx := (width chart / lit 2)%num in
  let cy := (height chart / lit 2)%num in
  let ls := labels (emitted (afterDraw_pieAt rot chart) c) in
  textAnchors ls
  = [ (Number_toString o +:+ "%",
       {| px := (cx - lit 140)%num; py := (cy - lit 10 - lit 5)%num |});
      (Number_toString s +:+ "%",
       {| px := (cx + lit 130)%num; py := (cy + lit 20 - lit 5)%num |});
      (Number_toString p +:+ "%",
       {| px := (cx + lit 110)%num; py := (cy + lit 90 - lit 5)%num |}) ] /\
  anchor <$> ls = pieAnchors cx cy /\
  (isFinite (width chart) = true -> isFinite (height chart) = true ->
   num_lt (cx - lit 140)%num cx /\ num_lt cx (cx + lit 130)%num /\
   num_lt cx (cx + lit 110)%num /\ num_lt cy (cy + lit 90 - lit 5)%num) /\
  text <$> labels (emitted
                     (afterDraw_pieAt rot (chartOf (datasets (pieConfig sampleData))))
                     c)
  = ["72%"; "23%"; "5%"] /\
  textAnchors (labels (emitted (SrcApp.afterDraw_pie chart) c))
  = [ ("72%", {| px := (cx - lit 80)%num; py := (cy - lit 20 - lit 5)%num |});
      ("23%", {| px := (cx + lit 80)%num; py := (cy + lit 10 - lit 5)%num |});
      ("5%", {| px := (cx + lit 20)%num; py := (cy + lit 80 - lit 5)%num |}) ].
Proof.
  intros Hdata cx cy ls. subst ls.
  rewrite !afterDraw_pieAt_labels. fold cx cy. rewrite Hdata.
  split; [reflexivity|]. split; [reflexivity|]. split; [|split].
  - intros Hw Hh.
    apply isFinite_Fin in Hw as (w & Hw), Hh as (h & Hh).
    subst cx cy. rewrite Hw, Hh, !div_lit_finite by discriminate.
    repeat split.
    + apply num_sub_lit_lt. lia.
    + apply num_add_lit_lt. lia.
    + apply num_add_lit_lt. lia.
    + simpl. apply Qclt_minus_iff.
      match goal with |- (0 < ?e)%Qc =>
        replace e with (Q2Qc (inject_Z 90) - Q2Qc (inject_Z 5))%Qc by ring
      end.
      by_evaluation.
  - change (pieData (chartOf (datasets (pieConfig sampleData))))
      with [lit 72; lit 23; lit 5].
    change (percentLabel [lit 72; lit 23; lit 5] 0)
      with (Number_toString (lit 72) +:+ "%").
    change (percentLabel [lit 72; lit 23; lit 5] 1)
      with (Number_toString (lit 23) +:+ "%").
    change (percentLabel [lit 72; lit 23; lit 5] 2)
      with (Number_toString (lit 5) +:+ "%").
    rewrite !Number_toString_lit by (vm_compute; reflexivity). reflexivity.
  - rewrite SrcApp_afterDraw_pie_emitted. reflexivity.
Qed.

Lemma pie_labels_fixed_anchors_witness :
  let chart := chartOf (datasets (pieConfig sampleData)) in
  textAnchors (labels (emitted (@afterDraw_pie EvalRuntime.runtime chart) freshCtx))
  = [ ("72%", {| px := lit 60; py := lit 135 |});
      ("23%", {| px := lit 330; py := lit 165 |});
      ("5%", {| px := lit 310; py := lit 235 |}) ].
Proof.
  intros chart. etransitivity.
  - exact (proj1 (@pie_labels_fixed_anchors EvalRuntime.runtime (lit 150) chart
                    freshCtx (lit 72) (lit 23) (lit 5) eq_refl)).
  - by_evaluation.
Defined.

(** C1, as the specification has it, fails: for the snapshot the service
    falls back to (every value zero) the overlay does not skip the angles:
    each connector has five waypoints and is not of length zero, and the
    first two of them, computed from 0/0, are NaN. *)
Lemma pie_zero_total_connectors :
  let d := @getDefaultData EvalRuntime.runtime (lit 60) failingEnv in
  let chart := chartOf (datasets (pieConfig d)) in
  let nan := {| px := NaN; py := NaN |} in
  pieTotal (pieData chart) = lit 0 /\
  labels (emitted (@afterDraw_pie EvalRuntime.runtime chart) freshCtx)
  = [ {| text := "0%";
         anchor := {| px := lit 60; py := lit 135 |};
         connector :=
           [ nan; nan; {| px := lit 90; py := lit 140 |};
             {| px := lit 60; py := lit 135 |}; {| px := lit 60; py := lit 135 |} ] |};
      {| text := "0%";
         anchor := {| px := lit 330; py := lit 165 |};
         connector :=
           [ nan; nan; {| px := lit 300; py := lit 170 |};
             {| px := lit 330; py := lit 165 |}; {| px := lit 330; py := lit 165 |} ] |};
      {| text := "0%";
         anchor := {| px := lit 310; py := lit 235 |};
         connector :=
           [ nan; nan; {| px := lit 280; py := lit 225 |};
             {| px := lit 310; py := lit 235 |}; {| px := lit 310; py := lit 235 |} ] |} ].
Proof. split; by_evaluation. Qed.

Lemma lit_inj z1 z2 : Q2Qc (inject_Z z1) = Q2Qc (inject_Z z2) -> z1 = z2.
Proof.
  intros E. apply (f_equal this) in E. rewrite !lit_this in E.
  now injection E.
Qed.

Lemma num_add_lit_ne q z1 z2 :
  z1 <> z2 -> (Fin q + lit z1)%num <> (Fin q + lit z2)%num.
Proof.
  intros Hz E. apply Hz, lit_inj.
  change (Fin (q + Q2Qc (inject_Z z1)) = Fin (q + Q2Qc (inject_Z z2))) in E.
  assert (q + Q2Qc (inject_Z z1) = q + Q2Qc (inject_Z z2))%Qc as E'
    by congruence.
  replace (Q2Qc (inject_Z z1)) with (q + Q2Qc (inject_Z z1) - q)%Qc by ring.
  rewrite E'. ring.
Qed.

Lemma num_sub_lit_ne q z1 z2 :
  z1 <> z2 -> (Fin q - lit z1)%num <> (Fin q - lit z2)%num.
Proof.
  intros Hz E. apply Hz, lit_inj.
  change (Fin (q + - Q2Qc (inject_Z z1)) = Fin (q + - Q2Qc (inject_Z z2))) in E.
  assert (q + - Q2Qc (inject_Z z1) = q + - Q2Qc (inject_Z z2))%Qc as E'
    by congruence.
  replace (Q2Qc (inject_Z z1)) with (q - (q + - Q2Qc (inject_Z z1)))%Qc by ring.
  rewrite E'. ring.
Qed.

(** C1, amended.  When the three values sum to zero the overlay takes no
    special path: it draws three labels, each with its value followed by
    "%" as text, at the anchors it uses for any other data, which are finite
    whenever the size of the chart is; each connector has five waypoints and
    ends with its fixed elbow and, twice, the anchor, so it has a length. *)
Theorem pie_zero_total_labels `{JsRuntime} (chart : ChartObject) (c : Ctx)
    (o s p : num) :
  pieData chart = [o; s; p] ->
  pieTotal [o; s; p] = lit 0 ->
  isFinite (width chart) = true ->
  isFinite (height chart) = true ->
  let cx := (width chart / lit 2)%num in
  let cy := (height chart / lit 2)%num in
  let ls := labels (emitted (afterDraw_pie chart) c) in
  text <$> ls
  = [ Number_toString o +:+ "%"; Number_toString s +:+ "%";
      Number_toString p +:+ "%" ] /\
  anchor <$> ls = pieAnchors cx cy /\
  (length ∘ connector) <$> ls = [5; 5; 5]%nat /\
  (drop 2 ∘ connector) <$> ls
  = zip_with (fun e a => [e; a; a]) (pieElbows cx cy) (pieAnchors cx cy) /\
  Forall (fun a => finitePoint a = true) (pieAnchors cx cy) /\
  Forall (fun e => finitePoint e = true) (pieElbows cx cy) /\
  Forall2 (fun e a => e <> a) (pieElbows cx cy) (pieAnchors cx cy).
Proof.
  intros Hdata _ Hw Hh cx cy ls. subst ls. unfold afterDraw_pie.
  rewrite afterDraw_pieAt_labels. fold cx cy. rewrite Hdata.
  do 4 (split; [reflexivity|]).
  apply isFinite_Fin in Hw as (w & Hw), Hh as (h & Hh).
  subst cx cy. rewrite Hw, Hh, !div_lit_finite by discriminate.
  split; [|split].
  - repeat constructor.
  - repeat constructor.
  - unfold pieElbows, pieAnchors.
    repeat (constructor;
            [intros E; apply (f_equal px) in E; cbn [px] in E; revert E;
             (apply num_sub_lit_ne || apply num_add_lit_ne); lia|]).
    constructor.
Qed.

Lemma pie_zero_total_labels_witness :
  let chart := chartOf (datasets (pieConfig (clinicDataOf 2 82 15 0 0 0))) in
  text <$> labels (emitted (@afterDraw_pie EvalRuntime.runtime chart) freshCtx)
  = ["0%"; "0%"; "0%"] /\
  anchor <$> labels (emitted (@afterDraw_pie EvalRuntime.runtime chart) freshCtx)
  = [ {| px := lit 60; py := lit 135 |}; {| px := lit 330; py := lit 165 |};
      {| px := lit 310; py := lit 235 |} ].
Proof.
  intros chart.
  destruct (@pie_zero_total_labels EvalRuntime.runtime chart freshCtx
              (lit 0) (lit 0) (lit 0) eq_refl)
    as (Htext & Hanchor & _).
  - by_evaluation.
  - reflexivity.
  - reflexivity.
  - split.
    + etransitivity; [exact Htext | by_evaluation].
    + etransitivity; [exact Hanchor | by_evaluation].
Defined.

(** ** Determinism of the overlays *)

(** C8. What an overlay lays out is a function of the snapshot, the geometry
    of the chart and the constants of the hook alone: on two contexts that
    differ in every style, in the current path and in what was drawn before,
    a hook produces the same labels (text, anchor and connector), and a
    second run on the context the first one left produces them again.  This
    holds for the three hooks and for those of the copy under src/app. *)
Theorem overlay_labels_deterministic `{JsRuntime} (p : Plugin) (d : ClinicData)
    (chart : ChartObject) (c1 c2 : Ctx) :
  labels (emitted (afterDraw p d chart) c1)
  = labels (emitted (afterDraw p d chart) c2) /\
  labels (emitted (afterDraw p d chart) (afterDraw p d chart c1))
  = labels (emitted (afterDraw p d chart) c1) /\
  labels (emitted (SrcApp.afterDraw p d chart) c1)
  = labels (emitted (SrcApp.afterDraw p d chart) c2) /\
  labels (emitted (SrcApp.afterDraw p d chart) (SrcApp.afterDraw p d chart c1))
  = labels (emitted (SrcApp.afterDraw p d chart) c1).
Proof.
  assert (forall a b, labels (emitted (afterDraw p d chart) a)
                      = labels (emitted (afterDraw p d chart) b)) as Hmain.
  { intros a b. destruct p; unfold afterDraw.
    - rewrite !afterDraw_stacked_emitted. reflexivity.
    - rewrite !afterDraw_scale_emitted. reflexivity.
    - unfold afterDraw_pie. rewrite !afterDraw_pieAt_emitted. reflexivity. }
  assert (forall a b, labels (emitted (SrcApp.afterDraw p d chart) a)
                      = labels (emitted (SrcApp.afterDraw p d chart) b)) as Hsrc.
  { intros a b. destruct p; unfold SrcApp.afterDraw.
    - rewrite !SrcApp_afterDraw_stacked_emitted. reflexivity.
    - rewrite !SrcApp_afterDraw_scale_emitted. reflexivity.
    - rewrite !SrcApp_afterDraw_pie_emitted. reflexivity. }
  repeat split; auto.
Qed.

(** The styles of what is drawn are another matter: the stacked-bar hook
    never sets the baseline, so its texts are drawn with the one it finds. *)
Example stacked_style_inherits_baseline :
  emitted (afterDraw_stacked sampleData (chartOf [])) freshCtx
  <> emitted (afterDraw_stacked sampleData (chartOf []))
       (set_textBaseline "middle" freshCtx).
Proof. by_evaluation. Qed.

(** ** The data provider *)

Lemma fileMap_period `{JsRuntime} period :
  ((period ∈ [lit 30; lit 60; lit 90]) /\
   (exists url, property fileMap period = Some url /\ url <> "")) \/
  ((period ∉ [lit 30; lit 60; lit 90]) /\ property fileMap period = None).
Proof.
  unfold fileMap. cbn [property].
  destruct (decide (lit 30 = period)) as [<-|N30].
  { left. split; [set_solver | eexists; split; [reflexivity | discriminate]]. }
  destruct (decide (lit 60 = period)) as [<-|N60].
  { left. split; [set_solver | eexists; split; [reflexivity | discriminate]]. }
  destruct (decide (lit 90 = period)) as [<-|N90].
  { left. split; [set_solver | eexists; split; [reflexivity | discriminate]]. }
  right. split; [|reflexivity].
  rewrite !elem_of_cons, elem_of_nil. intuition congruence.
Qed.

Lemma not_truthy_url url : url <> "" -> not_truthy (Some url) = false.
Proof. destruct url; [congruence | reflexivity]. Qed.

(** C3. Subscribing to getClinicDataByPeriod never yields an error
    notification.  For a period other than 30, 60 and 90 it yields the
    default snapshot and makes no request; for one of the three, when the
    request fails (transport, status or parsing) it yields the default
    snapshot too.  The default snapshot has every number zero, the reporting
    period "<period> days" and the current time as its time stamp; for
    period 60 the reporting period is "60 days". *)
Theorem getClinicDataByPeriod_never_errors `{JsRuntime} (period : num) (env : Env) :
  (exists d, outcome (getClinicDataByPeriod period env) = Next d) /\
  (period ∉ [lit 30; lit 60; lit 90] ->
   getClinicDataByPeriod period env
   = {| requests := []; outcome := Next (getDefaultData period env) |}) /\
  (forall url e,
     property fileMap period = Some url ->
     network env url = HttpFail e ->
     getClinicDataByPeriod period env
     = {| requests := [url]; outcome := Next (getDefaultData period env) |}) /\
  (let d := getDefaultData period env in
   patientCount d = lit 0 /\
   timeInRange d = {| inRange := lit 0; aboveRange := lit 0; belowRange := lit 0 |} /\
   gmi d = {| average := lit 0;
              distribution :=
                {| optimal := lit 0; suboptimal := lit 0; poor := lit 0 |} |} /\
   reportingPeriod d = Number_toString period +:+ " days" /\
   lastUpdated d = localeNow env) /\
  reportingPeriod (getDefaultData (lit 60) env) = "60 days".
Proof.
  split; [|split; [|split; [|split]]].
  - unfold getClinicDataByPeriod.
    destruct (fileMap_period period) as [(_ & url & -> & Hurl)|(_ & ->)].
    + rewrite (not_truthy_url _ Hurl).
      unfold Rx.catchError, Rx.map, Rx.of_, http_get. cbn.
      destruct (network env url); cbn; eauto.
    + cbn. eauto.
  - intros Hp. unfold getClinicDataByPeriod.
    destruct (fileMap_period period) as [(Hin & _)|(_ & ->)]; [contradiction|].
    reflexivity.
  - intros url e Hurl Hfail. unfold getClinicDataByPeriod.
    destruct (fileMap_period period) as [(_ & url' & Hurl' & Hne)|(_ & Hnone)];
      [|congruence].
    rewrite Hurl' in Hurl. injection Hurl as ->.
    rewrite Hurl', (not_truthy_url _ Hne).
    unfold Rx.catchError, Rx.map, Rx.of_, http_get. cbn. rewrite Hfail. reflexivity.
  - cbn. repeat split.
  - unfold getDefaultData. cbn [reportingPeriod].
    rewrite Number_toString_lit by (vm_compute; reflexivity). reflexivity.
Qed.

Lemma getClinicDataByPeriod_never_errors_witness :
  @getClinicDataByPeriod EvalRuntime.runtime (lit 60) failingEnv
  = {| requests := ["/resource/60day-results.json"];
       outcome := Next (@getDefaultData EvalRuntime.runtime (lit 60) failingEnv) |} /\
  @getClinicDataByPeriod EvalRuntime.runtime (lit 45) failingEnv
  = {| requests := [];
       outcome := Next (@getDefaultData EvalRuntime.runtime (lit 45) failingEnv) |}.
Proof.
  pose proof (@getClinicDataByPeriod_never_errors EvalRuntime.runtime)
    as Hspec.
  split.
  - apply (proj1 (proj2 (proj2 (Hspec (lit 60) failingEnv))))
      with (e := TransportError); reflexivity.
  - apply (proj1 (proj2 (Hspec (lit 45) failingEnv))). by_evaluation.
Defined.

(** ** The life cycle of the charts *)

Lemma initializeCharts_table w : initializeCharts w = createAll chartTable w.
Proof. reflexivity. Qed.

Lemma canvasIds_table : canvasIds = chartTable.*1.
Proof. reflexivity. Qed.

Lemma destroy_all (l : list Chart) (w : World) :
  fold_left (fun w chart => destroy chart w) l w
  = with_instances (instances w ∖ list_to_set (chart_id <$> l)) (nextId w) w.
Proof.
  revert w. induction l as [|c l IH]; intros w; cbn [fold_left].
  - destruct w; unfold with_instances; cbn. f_equal. set_solver.
  - rewrite IH. destruct w; unfold destroy, with_instances; cbn. f_equal.
    set_solver.
Qed.

Lemma destroyCharts_spec w :
  destroyCharts w
  = with_instances (instances w ∖ list_to_set (chart_id <$> charts w))
      (nextId w) w.
Proof. apply destroy_all. Qed.

Lemma createAll_spec table w :
  createAll table w
  = with_charts (charts w ++ built (clinicData w) (document w) (nextId w) table)
      (with_instances
         (list_to_set
            (chart_id <$> built (clinicData w) (document w) (nextId w) table)
          ∪ instances w)
         (nextId w + length (built (clinicData w) (document w) (nextId w) table))
         w).
Proof.
  unfold createAll. revert w.
  induction table as [|[id cfg] rest IH]; intros w; cbn [fold_left built].
  - destruct w; unfold with_charts, with_instances; cbn.
    rewrite app_nil_r, Nat.add_0_r. f_equal. set_solver.
  - rewrite IH. unfold createChart, getElementById.
    destruct (decide (id ∈ document w)) as [Hin|Hout]; [|reflexivity].
    destruct w; unfold new_Chart, with_charts, with_instances; cbn.
    rewrite <- app_assoc. cbn. f_equal; [set_solver | lia].
Qed.

Lemma built_canvas d present first table :
  canvas <$> built d present first table
  = filter (fun id => id ∈ present) table.*1.
Proof.
  revert first. induction table as [|[id cfg] rest IH]; intros first; [reflexivity|].
  cbn [built fmap list_fmap fst]. rewrite filter_cons. cbn [fst].
  destruct (decide (id ∈ present)); cbn; now rewrite IH.
Qed.

Lemma built_ids d present first table c :
  c ∈ built d present first table ->
  (first <= chart_id c)%nat /\
  exists cfg, (canvas c, cfg) ∈ table /\ config c = cfg d.
Proof.
  revert first. induction table as [|[id cfg] rest IH]; intros first; cbn [built].
  - intros Hc. inversion Hc.
  - destruct (decide (id ∈ present)).
    + rewrite elem_of_cons. intros [->|Hc].
      * cbn. split; [lia|]. exists cfg. split; [left | reflexivity].
      * apply IH in Hc as (Hle & cfg' & Hin & Hcfg).
        split; [lia|]. exists cfg'. split; [now right | exact Hcfg].
    + intros Hc. apply IH in Hc as (Hle & cfg' & Hin & Hcfg).
      split; [lia|]. exists cfg'. split; [now right | exact Hcfg].
Qed.

Lemma built_below d present first table c :
  c ∈ built d present first table ->
  (chart_id c < first + length (built d present first table))%nat.
Proof.
  revert first. induction table as [|[id cfg] rest IH]; intros first; cbn [built].
  - intros Hc. inversion Hc.
  - destruct (decide (id ∈ present)); [|apply IH].
    rewrite elem_of_cons. intros [->|Hc]; cbn; [lia|].
    apply IH in Hc. lia.
Qed.

Lemma consistent_new doc : consistent (newComponent doc).
Proof.
  unfold consistent, newComponent; cbn.
  split; [|split]; [intros c Hc; inversion Hc | set_solver | set_solver].
Qed.

Lemma consistent_destroyCharts w : consistent w -> consistent (destroyCharts w).
Proof.
  intros (Hc & Hi & Hsub). rewrite destroyCharts_spec.
  unfold consistent; cbn. split; [exact Hc|]. split; [|set_solver].
  intros i Hin. apply Hi. set_solver.
Qed.

Lemma consistent_next data w : consistent w -> consistent (loadClinicData_next data w).
Proof.
  intros (Hc & Hi & Hsub). unfold loadClinicData_next.
  rewrite destroyCharts_spec. unfold consistent; cbn.
  split; [intros c Hin; inversion Hin|]. split; [|set_solver].
  intros i Hin. apply Hi. set_solver.
Qed.

Lemma consistent_deliver `{JsRuntime} period n w :
  consistent w -> consistent (deliver period n w).
Proof.
  intros Hw. destruct n; cbn [deliver]; [now apply consistent_next | exact Hw].
Qed.

Lemma consistent_loadClinicData `{JsRuntime} period env w :
  consistent w -> consistent (loadClinicData period env w).
Proof.
  intros Hw. unfold loadClinicData.
  destruct (requests _); [now apply consistent_deliver | exact Hw].
Qed.

Lemma consistent_createAll table w : consistent w -> consistent (createAll table w).
Proof.
  intros (Hc & Hi & Hsub). rewrite createAll_spec. unfold consistent; cbn.
  split; [|split].
  - intros c. rewrite elem_of_app. intros [Hin|Hin].
    + apply Hc in Hin. lia.
    + now apply built_below.
  - intros i. rewrite elem_of_union, elem_of_list_to_set, list_elem_of_fmap.
    intros [(c & -> & Hin)|Hin].
    + now apply built_below.
    + apply Hi in Hin. lia.
  - rewrite fmap_app, list_to_set_app_L. set_solver.
Qed.

Lemma consistent_step `{JsRuntime} e w : consistent w -> consistent (step e w).
Proof.
  intros Hw. destruct e; cbn [step].
  - now apply consistent_loadClinicData.
  - unfold onPeriodChange. now apply consistent_loadClinicData.
  - unfold respond. destruct (inflight w !! i) as [[period n]|]; [|exact Hw].
    now apply consistent_deliver.
  - unfold timeout. destruct (timers w) as [|n] eqn:E; [exact Hw|].
    rewrite initializeCharts_table. now apply consistent_createAll.
  - exact Hw.
  - now apply consistent_destroyCharts.
Qed.

Lemma reachable_consistent `{JsRuntime} w : reachable w -> consistent w.
Proof.
  induction 1 as [doc|e w _ IH]; [apply consistent_new | now apply consistent_step].
Qed.

Lemma NoDup_canvasIds : NoDup canvasIds.
Proof. by_evaluation. Qed.

(** C7. When a period switch completes (the [next] callback has run and its
    timer has fired, on a page whose canvases are [doc] by then), the list
    holds one chart for each of the five canvases that is on the page, in
    the order of initializeCharts, and none for a canvas that is not: between
    0 and 5 charts, no two on one canvas.  Every one of them is new (it was
    not in the list before the switch) and configured from the new snapshot,
    and the charts that are live are exactly those of the list. *)
Theorem period_switch_charts `{JsRuntime} (w : World) (data : ClinicData)
    (doc : gset string) :
  reachable w ->
  let w' := timeout (with_document doc (loadClinicData_next data w)) in
  canvas <$> charts w' = filter (fun id => id ∈ doc) canvasIds /\
  (length (charts w') <= 5)%nat /\
  NoDup (canvas <$> charts w') /\
  (forall c, c ∈ charts w' ->
     (c ∉ charts w) /\
     (exists cfg, (canvas c, cfg) ∈ chartTable /\ config c = cfg data)) /\
  instances w' = list_to_set (chart_id <$> charts w') /\
  clinicData w' = data.
Proof.
  intros Hreach w'.
  destruct (reachable_consistent w Hreach) as (Hc & Hi & Hsub).
  assert (w' = createAll chartTable
                 (with_timers (timers w)
                    (with_document doc
                       (with_charts []
                          (with_instances
                             (instances w ∖ list_to_set (chart_id <$> charts w))
                             (nextId w) (with_clinicData data w)))))) as ->.
  { subst w'. unfold loadClinicData_next. rewrite destroyCharts_spec.
    reflexivity. }
  rewrite createAll_spec.
  cbn [charts instances clinicData nextId document with_charts with_instances
       with_timers with_document with_clinicData app].
  set (new := built data doc (nextId w) chartTable).
  assert (canvas <$> new = filter (fun id => id ∈ doc) canvasIds) as Hcanvas
    by (subst new; now rewrite built_canvas, canvasIds_table).
  split; [exact Hcanvas|]. split.
  { rewrite <- (length_fmap canvas), Hcanvas.
    etransitivity; [apply length_filter | reflexivity]. }
  split.
  { rewrite Hcanvas. apply NoDup_filter, NoDup_canvasIds. }
  split.
  { intros c Hin. apply built_ids in Hin as (Hle & Hcfg).
    split; [|exact Hcfg].
    intros Hold. apply Hc in Hold. lia. }
  split; [|reflexivity].
  assert (instances w ∖ list_to_set (chart_id <$> charts w) = (∅ : gset nat))
    as -> by set_solver.
  set_solver.
Qed.

Lemma period_switch_charts_witness :
  let doc : gset string := {[ "gmiPieChart"; "timeInRangeHorizontalScale" ]} in
  let w := timeout
             (with_document doc
                (loadClinicData_next (clinicDataOf 5 80 15 60 30 10)
                   (newComponent doc))) in
  canvas <$> charts w = ["timeInRangeHorizontalScale"; "gmiPieChart"].
Proof.
  intros doc w. etransitivity.
  - exact (proj1 (@period_switch_charts EvalRuntime.runtime (newComponent doc)
                    (clinicDataOf 5 80 15 60 30 10) doc (reachable_new doc))).
  - by_evaluation.
Defined.

(** ** More on the data provider *)

(** A response that arrives is handed on as it is, after one request for the
    file of the period. *)
Theorem getClinicDataByPeriod_passes_body `{JsRuntime} (period : num) (env : Env)
    (url : string) (body : ClinicData) :
  property fileMap period = Some url ->
  network env url = HttpOk body ->
  getClinicDataByPeriod period env = {| requests := [url]; outcome := Next body |}.
Proof.
  intros Hurl Hok. unfold getClinicDataByPeriod.
  destruct (fileMap_period period) as [(_ & url' & Hurl' & Hne)|(_ & Hnone)];
    [|congruence].
  rewrite Hurl' in Hurl. injection Hurl as ->.
  rewrite Hurl', (not_truthy_url _ Hne).
  unfold Rx.catchError, Rx.map, http_get. cbn. rewrite Hok. reflexivity.
Qed.

Lemma getClinicDataByPeriod_passes_body_witness :
  @getClinicDataByPeriod EvalRuntime.runtime (lit 90) (servingEnv sampleData)
  = {| requests := ["/resource/90day-results.json"]; outcome := Next sampleData |}.
Proof.
  apply (@getClinicDataByPeriod_passes_body EvalRuntime.runtime); reflexivity.
Defined.

(** The requests of a subscription: one, for the file of the period, when
    the period is 30, 60 or 90, and none otherwise, whatever the network
    answers. *)
Theorem getClinicDataByPeriod_requests `{JsRuntime} (period : num) (env : Env) :
  requests (getClinicDataByPeriod period env)
  = if decide (period = lit 30) then ["/resource/30day-results.json"]
    else if decide (period = lit 60) then ["/resource/60day-results.json"]
    else if decide (period = lit 90) then ["/resource/90day-results.json"]
    else [].
Proof.
  unfold getClinicDataByPeriod, fileMap. cbn [property].
  destruct (decide (lit 30 = period)) as [<-|N30].
  { rewrite decide_True by reflexivity. cbn.
    unfold Rx.catchError, Rx.map, http_get. cbn.
    destruct (network env _); reflexivity. }
  rewrite (decide_False (P := period = lit 30)) by congruence.
  destruct (decide (lit 60 = period)) as [<-|N60].
  { rewrite decide_True by reflexivity. cbn.
    unfold Rx.catchError, Rx.map, http_get. cbn.
    destruct (network env _); reflexivity. }
  rewrite (decide_False (P := period = lit 60)) by congruence.
  destruct (decide (lit 90 = period)) as [<-|N90].
  { rewrite decide_True by reflexivity. cbn.
    unfold Rx.catchError, Rx.map, http_get. cbn.
    destruct (network env _); reflexivity. }
  rewrite (decide_False (P := period = lit 90)) by congruence.
  reflexivity.
Qed.

Lemma getClinicDataByPeriod_next `{JsRuntime} period env :
  exists d, outcome (getClinicDataByPeriod period env) = Next d.
Proof.
  unfold getClinicDataByPeriod.
  destruct (fileMap_period period) as [(_ & url & -> & Hurl)|(_ & ->)].
  - rewrite (not_truthy_url _ Hurl).
    unfold Rx.catchError, Rx.map, Rx.of_, http_get. cbn.
    destruct (network env url); cbn; eauto.
  - cbn. eauto.
Qed.

(** ** More on the life cycle *)

(** ngOnDestroy destroys every chart of the list and keeps the list: no
    chart is live afterwards, and the list still names the destroyed ones. *)
Theorem ngOnDestroy_leaves_no_live_chart `{JsRuntime} (w : World) :
  reachable w ->
  instances (ngOnDestroy w) = ∅ /\ charts (ngOnDestroy w) = charts w.
Proof.
  intros Hreach. destruct (reachable_consistent w Hreach) as (_ & _ & Hsub).
  unfold ngOnDestroy. rewrite destroyCharts_spec. cbn.
  split; [set_solver | reflexivity].
Qed.

Lemma ngOnDestroy_leaves_no_live_chart_witness :
  let w := @run EvalRuntime.runtime
             [NgOnInit (servingEnv sampleData); Respond 0; Timeout]
             (newComponent {[ "gmiPieChart" ]}) in
  length (charts w) = 1%nat /\ instances (ngOnDestroy w) = ∅.
Proof.
  intros w. split; [by_evaluation|].
  apply (@ngOnDestroy_leaves_no_live_chart EvalRuntime.runtime w).
  subst w. unfold run. cbn [fold_left]. repeat constructor.
Defined.

Lemma built_NoDup d present first table :
  NoDup (chart_id <$> built d present first table).
Proof.
  revert first. induction table as [|[id cfg] rest IH]; intros first; cbn [built].
  - constructor.
  - destruct (decide (id ∈ present)); [|apply IH].
    cbn. constructor; [|apply IH].
    rewrite list_elem_of_fmap. intros (c & Hid & Hin).
    apply built_ids in Hin as (Hle & _). cbn in Hid. lia.
Qed.

(** What holds of the list in every world besides [consistent]: no two of
    its charts share an id. *)
Lemma distinct_step `{JsRuntime} e w :
  consistent w -> NoDup (chart_id <$> charts w) ->
  NoDup (chart_id <$> charts (step e w)).
Proof.
  intros (Hc & _ & _) Hnd.
  assert (forall data v, NoDup (chart_id <$> charts (loadClinicData_next data v)))
    as Hnext by (intros; cbn; constructor).
  assert (forall period n v,
            NoDup (chart_id <$> charts v) ->
            NoDup (chart_id <$> charts (deliver period n v))) as Hdeliver.
  { intros period n v Hv. destruct n; cbn [deliver]; [apply Hnext | exact Hv]. }
  assert (forall period env v,
            NoDup (chart_id <$> charts v) ->
            NoDup (chart_id <$> charts (loadClinicData period env v))) as Hload.
  { intros period env v Hv. unfold loadClinicData.
    destruct (requests _); [now apply Hdeliver | exact Hv]. }
  destruct e; cbn [step].
  - now apply Hload.
  - unfold onPeriodChange. now apply Hload.
  - unfold respond. destruct (inflight w !! i) as [[period n]|]; [|exact Hnd].
    now apply Hdeliver.
  - unfold timeout. destruct (timers w) as [|n]; [exact Hnd|].
    rewrite initializeCharts_table, createAll_spec.
    cbn [charts with_charts with_instances with_timers clinicData document
         nextId].
    rewrite fmap_app. apply NoDup_app. split; [exact Hnd|]. split.
    + intros i. rewrite !list_elem_of_fmap.
      intros (c & -> & Hin) (c' & Hid & Hin').
      apply Hc in Hin. apply built_ids in Hin' as (Hle & _). lia.
    + apply built_NoDup.
  - exact Hnd.
  - unfold ngOnDestroy. rewrite destroyCharts_spec. exact Hnd.
Qed.

(** In every world the component reaches, a chart that is live is in the
    list, so the next refresh or ngOnDestroy destroys it, and the charts of
    the list have distinct ids. *)
Theorem live_charts_are_listed `{JsRuntime} (w : World) :
  reachable w ->
  instances w ⊆ list_to_set (chart_id <$> charts w) /\
  NoDup (chart_id <$> charts w).
Proof.
  intros Hreach. split; [apply (reachable_consistent w Hreach)|].
  induction Hreach as [doc|e w Hw IH]; [constructor|].
  apply distinct_step; [now apply reachable_consistent | exact IH].
Qed.

Lemma live_charts_are_listed_witness :
  let w := @run EvalRuntime.runtime
             [NgOnInit (servingEnv sampleData); Respond 0; Timeout]
             (newComponent {[ "gmiPieChart"; "gmiRanges" ]}) in
  NoDup (chart_id <$> charts w).
Proof.
  intros w.
  apply (@live_charts_are_listed EvalRuntime.runtime w).
  subst w. unfold run. cbn [fold_left]. repeat constructor.
Defined.

Lemma inflight_deliver `{JsRuntime} period n w :
  inflight (deliver period n w) = inflight w.
Proof.
  destruct n; cbn [deliver]; [|reflexivity].
  unfold loadClinicData_next. rewrite destroyCharts_spec. reflexivity.
Qed.

Lemma inflight_all_next `{JsRuntime} (w : World) :
  reachable w ->
  Forall (fun pending => exists d, pending.2 = Next d) (inflight w).
Proof.
  assert (forall period env v,
            Forall (fun pending => exists d, pending.2 = Next d) (inflight v) ->
            Forall (fun pending => exists d, pending.2 = Next d)
              (inflight (loadClinicData period env v))) as Hload.
  { intros period env v Hv. unfold loadClinicData.
    destruct (getClinicDataByPeriod_next period env) as (d & Hd).
    destruct (requests _).
    - rewrite inflight_deliver. exact Hv.
    - cbn. apply Forall_app. split; [exact Hv|].
      constructor; [|constructor]. cbn. eauto. }
  induction 1 as [doc|e w _ IH]; [constructor|].
  destruct e; cbn [step].
  - now apply Hload.
  - unfold onPeriodChange. now apply Hload.
  - unfold respond. destruct (inflight w !! i) as [[period n]|] eqn:E; [|exact IH].
    assert (Forall (fun pending => exists d, pending.2 = Next d)
              (delete i (inflight w))) as Hdel.
    { now apply Forall_delete. }
    rewrite inflight_deliver. exact Hdel.
  - unfold timeout. destruct (timers w) as [|n]; [exact IH|].
    rewrite initializeCharts_table, createAll_spec. exact IH.
  - exact IH.
  - unfold ngOnDestroy. rewrite destroyCharts_spec. exact IH.
Qed.

Lemma respond_next `{JsRuntime} w i period d :
  inflight w !! i = Some (period, Next d) ->
  respond i w = loadClinicData_next d (with_inflight (delete i (inflight w)) w).
Proof. intros E. unfold respond. rewrite E. reflexivity. Qed.

(** No subscription of the component ever receives an error: a response
    that arrives always runs the [next] callback with a snapshot, and the
    [error] callback of loadClinicData is never run. *)
Theorem inflight_never_errors `{JsRuntime} (w : World) (i : nat) :
  reachable w ->
  inflight w !! i = None /\ respond i w = w \/
  exists period d,
    inflight w !! i = Some (period, Next d) /\
    respond i w
    = loadClinicData_next d (with_inflight (delete i (inflight w)) w).
Proof.
  intros Hreach. pose proof (inflight_all_next w Hreach) as Hnext.
  destruct (inflight w !! i) as [[period n]|] eqn:E.
  - right. rewrite Forall_forall in Hnext.
    destruct (Hnext (period, n)) as (d & Hd);
      [eapply list_elem_of_lookup_2; exact E|].
    cbn in Hd. subst n. exists period, d. split; [reflexivity|].
    exact (respond_next w i period d E).
  - left. split; [reflexivity|]. unfold respond. now rewrite E.
Qed.

Lemma inflight_never_errors_witness :
  let w := @run EvalRuntime.runtime
             [NgOnInit failingEnv; OnPeriodChange (lit 60) failingEnv]
             (newComponent ∅) in
  inflight w !! 1%nat = None /\ @respond EvalRuntime.runtime 1 w = w \/
  exists period d,
    inflight w !! 1%nat = Some (period, Next d) /\
    @respond EvalRuntime.runtime 1 w
    = loadClinicData_next d (with_inflight (delete 1%nat (inflight w)) w).
Proof.
  intros w.
  apply (@inflight_never_errors EvalRuntime.runtime w 1).
  subst w. unfold run. cbn [fold_left]. repeat constructor.
Defined.

(** While no timer fires, a dashboard without charts stays without charts
    and loses no timer. *)
Lemma no_chart_step `{JsRuntime} (e : Event) (w : World) :
  e <> Timeout ->
  charts w = [] -> instances w = ∅ ->
  charts (step e w) = [] /\ instances (step e w) = ∅ /\
  (timers w <= timers (step e w))%nat.
Proof.
  intros He Hc Hi.
  assert (forall d w0, charts w0 = [] -> instances w0 = ∅ ->
            charts (loadClinicData_next d w0) = [] /\
            instances (loadClinicData_next d w0) = ∅ /\
            (timers w0 <= timers (loadClinicData_next d w0))%nat) as Hnext.
  { intros d w0 Hc0 Hi0. unfold loadClinicData_next, destroyCharts. cbn.
    rewrite Hc0. cbn. repeat split; [exact Hi0 | lia]. }
  assert (forall p n w0, charts w0 = [] -> instances w0 = ∅ ->
            charts (deliver p n w0) = [] /\ instances (deliver p n w0) = ∅ /\
            (timers w0 <= timers (deliver p n w0))%nat) as Hdel.
  { intros p [d|err] w0 Hc0 Hi0; [now apply Hnext|].
    cbn. repeat split; [exact Hc0 | exact Hi0 | lia]. }
  assert (forall p env w0, charts w0 = [] -> instances w0 = ∅ ->
            charts (loadClinicData p env w0) = [] /\
            instances (loadClinicData p env w0) = ∅ /\
            (timers w0 <= timers (loadClinicData p env w0))%nat) as Hload.
  { intros p env w0 Hc0 Hi0. unfold loadClinicData.
    destruct (requests (getClinicDataByPeriod p env)); [now apply Hdel|].
    cbn. repeat split; [exact Hc0 | exact Hi0 | lia]. }
  destruct e as [env|p env|i| |doc|]; cbn [step].
  - now apply Hload.
  - unfold onPeriodChange.
    destruct (Hload p env (with_selectedPeriod p w) Hc Hi) as (A & B & C).
    repeat split; [exact A | exact B | exact C].
  - unfold respond. destruct (inflight w !! i) as [[p n]|].
    + destruct (Hdel p n (with_inflight (delete i (inflight w)) w) Hc Hi)
        as (A & B & C).
      repeat split; [exact A | exact B | exact C].
    + repeat split; [exact Hc | exact Hi | lia].
  - congruence.
  - cbn. repeat split; [exact Hc | exact Hi | lia].
  - unfold ngOnDestroy, destroyCharts. rewrite Hc. cbn.
    repeat split; [exact Hc | exact Hi | lia].
Qed.

Lemma no_chart_run `{JsRuntime} (events : list Event) (w : World) :
  Forall (fun e => e <> Timeout) events ->
  charts w = [] -> instances w = ∅ ->
  charts (run events w) = [] /\ instances (run events w) = ∅ /\
  (timers w <= timers (run events w))%nat.
Proof.
  intros Hev. revert w. induction Hev as [|e events He _ IH]; intros w Hc Hi.
  - cbn. repeat split; [exact Hc | exact Hi | lia].
  - destruct (no_chart_step e w He Hc Hi) as (A & B & C).
    destruct (IH (step e w) A B) as (A' & B' & C').
    change (run (e :: events) w) with (run events (step e w)).
    repeat split; [exact A' | exact B' | lia].
Qed.

(** After the [next] callback the dashboard has no chart until a timer
    fires: whatever happens in between (a selection, a response, a change of
    the page, ngOnDestroy), the list stays empty, no chart is live and the
    timer of the callback stays pending.  The callback itself puts the new
    snapshot in place and sets one timer. *)
Theorem next_callback_clears_charts `{JsRuntime} (w : World) (data : ClinicData)
    (events : list Event) :
  reachable w ->
  Forall (fun e => e <> Timeout) events ->
  let w0 := loadClinicData_next data w in
  let w' := run events w0 in
  clinicData w0 = data /\ timers w0 = S (timers w) /\ nextId w0 = nextId w /\
  charts w' = [] /\ instances w' = ∅ /\ (S (timers w) <= timers w')%nat.
Proof.
  intros Hreach Hev w0 w'.
  destruct (reachable_consistent w Hreach) as (_ & _ & Hsub).
  assert (charts w0 = [] /\ instances w0 = ∅ /\ clinicData w0 = data /\
          timers w0 = S (timers w) /\ nextId w0 = nextId w)
    as (Hc & Hi & Hd & Ht & Hn).
  { subst w0. unfold loadClinicData_next. rewrite destroyCharts_spec. cbn.
    repeat split. set_solver. }
  destruct (no_chart_run events w0 Hev Hc Hi) as (A & B & C).
  repeat split; try assumption. subst w'. lia.
Qed.

Lemma next_callback_clears_charts_witness :
  let w := @run EvalRuntime.runtime
             [NgOnInit (servingEnv sampleData); Respond 0; Timeout]
             (newComponent {[ "gmiPieChart"; "gmiRanges" ]}) in
  let events :=
    [OnPeriodChange (lit 60) (servingEnv sampleData); Layout ∅; NgOnDestroy;
     Respond 0] in
  instances w = {[ 0%nat; 1%nat ]} /\
  instances (@run EvalRuntime.runtime events (loadClinicData_next sampleData w))
  = ∅.
Proof.
  intros w events. split; [by_evaluation|].
  apply (@next_callback_clears_charts EvalRuntime.runtime w sampleData events).
  - subst w. unfold run. cbn [fold_left]. repeat constructor.
  - subst events. repeat constructor; discriminate.
Defined.

(** Selecting a period that has no file is answered at once: the default
    snapshot of that period replaces the data, the charts are destroyed and
    a timer is set, and nothing is awaited from the network. *)
Theorem onPeriodChange_unknown_period `{JsRuntime} (period : num) (env : Env)
    (w : World) :
  period ∉ [lit 30; lit 60; lit 90] ->
  onPeriodChange period env w
  = loadClinicData_next (getDefaultData period env) (with_selectedPeriod period w).
Proof.
  intros Hp. unfold onPeriodChange, loadClinicData, getClinicDataByPeriod.
  destruct (fileMap_period period) as [(Hin & _)|(_ & ->)]; [contradiction|].
  reflexivity.
Qed.

Lemma onPeriodChange_unknown_period_witness :
  let w := @onPeriodChange EvalRuntime.runtime (lit 45) failingEnv
             (newComponent ∅) in
  reportingPeriod (clinicData w) = "45 days" /\ inflight w = [] /\
  timers w = 1%nat.
Proof.
  intros w. subst w.
  rewrite (@onPeriodChange_unknown_period EvalRuntime.runtime (lit 45) failingEnv
             (newComponent ∅)) by by_evaluation.
  repeat split.
Defined.

Lemma outcome_of_body `{JsRuntime} period env url body :
  property fileMap period = Some url ->
  network env url = HttpOk body ->
  outcome (getClinicDataByPeriod period env) = Next body.
Proof.
  intros Hurl Hok. unfold getClinicDataByPeriod. rewrite Hurl.
  destruct (fileMap_period period) as [(_ & url' & Hurl' & Hne)|(_ & Hnone)];
    [|congruence].
  assert (url' = url) as -> by congruence.
  rewrite (not_truthy_url _ Hne).
  unfold Rx.catchError, Rx.map, http_get. cbn. now rewrite Hok.
Qed.

Lemma loadClinicData_known `{JsRuntime} period env w :
  period ∈ [lit 30; lit 60; lit 90] ->
  loadClinicData period env w
  = with_inflight
      (inflight w ++ [(period, outcome (getClinicDataByPeriod period env))]) w.
Proof.
  intros Hp. unfold loadClinicData.
  destruct (fileMap_period period) as [(_ & url & Hurl & Hne)|(Hout & _)];
    [|contradiction].
  unfold getClinicDataByPeriod at 1. rewrite Hurl, (not_truthy_url _ Hne).
  unfold Rx.catchError, Rx.map, http_get. cbn.
  destruct (network env url); reflexivity.
Qed.

(** Selecting 30, 60 or 90 only records the selection and the awaited
    response: until the response arrives the data, the charts and the timers
    are those of before. *)
Theorem onPeriodChange_awaits_response `{JsRuntime} (period : num) (env : Env)
    (w : World) :
  period ∈ [lit 30; lit 60; lit 90] ->
  onPeriodChange period env w
  = with_inflight
      (inflight w ++ [(period, outcome (getClinicDataByPeriod period env))])
      (with_selectedPeriod period w).
Proof.
  intros Hp. unfold onPeriodChange.
  rewrite (loadClinicData_known period env _ Hp). reflexivity.
Qed.

Lemma onPeriodChange_awaits_response_witness :
  let w := newComponent {[ "gmiPieChart" ]} in
  let w' := @onPeriodChange EvalRuntime.runtime (lit 60) (servingEnv sampleData) w in
  clinicData w' = clinicData w /\ charts w' = charts w /\
  selectedPeriod w' = lit 60 /\ length (inflight w') = 1%nat.
Proof.
  intros w w'. subst w'.
  rewrite (@onPeriodChange_awaits_response EvalRuntime.runtime (lit 60)
             (servingEnv sampleData) w) by by_evaluation.
  repeat split.
Defined.

Lemma loadClinicData_next_fields d w :
  inflight (loadClinicData_next d w) = inflight w /\
  clinicData (loadClinicData_next d w) = d /\
  selectedPeriod (loadClinicData_next d w) = selectedPeriod w.
Proof.
  unfold loadClinicData_next. rewrite destroyCharts_spec. repeat split.
Qed.

(** Responses are applied in the order they arrive, not in the order of the
    selections: when two periods are selected one after the other and the
    response for the first arrives last, the dashboard ends up with the data
    of the first while the second is the selected one. *)
Theorem late_response_overwrites `{JsRuntime} (w : World) (p1 p2 : num)
    (env1 env2 : Env) (url1 url2 : string) (body1 body2 : ClinicData) :
  inflight w = [] ->
  property fileMap p1 = Some url1 -> network env1 url1 = HttpOk body1 ->
  property fileMap p2 = Some url2 -> network env2 url2 = HttpOk body2 ->
  let w' := run [OnPeriodChange p1 env1; OnPeriodChange p2 env2;
                 Respond 1; Respond 0] w in
  clinicData w' = body1 /\ selectedPeriod w' = p2 /\ inflight w' = [].
Proof.
  intros Hidle Hu1 Hb1 Hu2 Hb2.
  assert (p1 ∈ [lit 30; lit 60; lit 90]) as Hp1.
  { destruct (fileMap_period p1) as [(Hin & _)|(_ & Hnone)]; [exact Hin | congruence]. }
  assert (p2 ∈ [lit 30; lit 60; lit 90]) as Hp2.
  { destruct (fileMap_period p2) as [(Hin & _)|(_ & Hnone)]; [exact Hin | congruence]. }
  cbv zeta. unfold run. cbn [fold_left step]. unfold onPeriodChange.
  rewrite (loadClinicData_known p1 env1 _ Hp1).
  rewrite (loadClinicData_known p2 env2 _ Hp2).
  rewrite (outcome_of_body p1 env1 url1 body1 Hu1 Hb1).
  rewrite (outcome_of_body p2 env2 url2 body2 Hu2 Hb2).
  cbn [inflight with_inflight with_selectedPeriod outcome]. rewrite Hidle.
  cbn [app].
  set (w2 := with_inflight _ _).
  assert (inflight w2 = [(p1, Next body1); (p2, Next body2)]) as Hw2
    by reflexivity.
  rewrite (respond_next w2 1 p2 body2) by (rewrite Hw2; reflexivity).
  rewrite Hw2. cbn [delete list_delete].
  set (w3 := loadClinicData_next body2 _).
  assert (inflight w3 = [(p1, Next body1)]) as Hin3.
  { subst w3. now rewrite (proj1 (loadClinicData_next_fields _ _)). }
  assert (selectedPeriod w3 = p2) as Hsel3.
  { subst w3. now rewrite (proj2 (proj2 (loadClinicData_next_fields _ _))). }
  rewrite (respond_next w3 0 p1 body1) by (rewrite Hin3; reflexivity).
  rewrite Hin3. cbn [delete list_delete].
  destruct (loadClinicData_next_fields body1 (with_inflight [] w3))
    as (Hin4 & Hdata4 & Hsel4).
  rewrite Hin4, Hdata4, Hsel4. split; [reflexivity|]. split; [exact Hsel3|].
  reflexivity.
Qed.

Lemma late_response_overwrites_witness :
  let thirty := clinicDataOf 2 82 15 72 23 5 in
  let sixty := clinicDataOf 4 76 20 60 30 10 in
  let w := @run EvalRuntime.runtime
             [OnPeriodChange (lit 30) (servingEnv thirty);
              OnPeriodChange (lit 60) (servingEnv sixty);
              Respond 1; Respond 0]
             (newComponent ∅) in
  clinicData w = thirty /\ selectedPeriod w = lit 60.
Proof.
  intros thirty sixty w.
  destruct (@late_response_overwrites EvalRuntime.runtime (newComponent ∅)
              (lit 30) (lit 60) (servingEnv thirty) (servingEnv sixty)
              "/resource/30day-results.json" "/resource/60day-results.json"
              thirty sixty eq_refl eq_refl eq_refl eq_refl eq_refl)
    as (Hdata & Hsel & _).
  split; [exact Hdata | exact Hsel].
Defined.

Lemma charts_next d w : charts (loadClinicData_next d w) = [].
Proof. unfold loadClinicData_next. rewrite destroyCharts_spec. reflexivity. Qed.

(** Every chart of the list was configured from the snapshot the component
    holds now: the bars Chart.js draws from the configuration and the labels
    the overlays compute from this.clinicData never show different data. *)
Theorem charts_show_current_snapshot `{JsRuntime} (w : World) :
  reachable w ->
  forall c, c ∈ charts w ->
    exists cfg, (canvas c, cfg) ∈ chartTable /\ config c = cfg (clinicData w).
Proof.
  intros Hreach.
  induction Hreach as [doc|e w Hw IH]; [intros c Hc; inversion Hc|].
  assert (forall period env c,
            c ∈ charts (loadClinicData period env w) ->
            exists cfg, (canvas c, cfg) ∈ chartTable /\
              config c = cfg (clinicData (loadClinicData period env w)))
    as Hload.
  { intros period env c. unfold loadClinicData.
    destruct (getClinicDataByPeriod_next period env) as (d & Hd).
    destruct (requests _).
    - rewrite Hd. cbn [deliver]. rewrite charts_next. intros Hc. inversion Hc.
    - apply IH. }
  destruct e; cbn [step].
  - apply Hload.
  - unfold onPeriodChange, loadClinicData.
    destruct (getClinicDataByPeriod_next period env) as (d & Hd).
    destruct (requests _).
    + rewrite Hd. cbn [deliver]. rewrite charts_next. intros c Hc. inversion Hc.
    + apply IH.
  - unfold respond. destruct (inflight w !! i) as [[period n]|] eqn:E; [|exact IH].
    pose proof (inflight_all_next w Hw) as Hnext.
    rewrite Forall_forall in Hnext.
    destruct (Hnext (period, n)) as (d & Hd);
      [eapply list_elem_of_lookup_2; exact E|].
    cbn in Hd. subst n. cbn [deliver]. rewrite charts_next.
    intros c Hc. inversion Hc.
  - unfold timeout. destruct (timers w) as [|n]; [exact IH|].
    rewrite initializeCharts_table, createAll_spec.
    cbn [charts clinicData with_charts with_instances with_timers document
         nextId].
    intros c. rewrite elem_of_app. intros [Hc|Hc]; [now apply IH|].
    apply built_ids in Hc as (_ & Hcfg). exact Hcfg.
  - exact IH.
  - unfold ngOnDestroy. rewrite destroyCharts_spec. exact IH.
Qed.

Lemma charts_show_current_snapshot_witness :
  let data := clinicDataOf 4 76 20 60 30 10 in
  let w := @run EvalRuntime.runtime
             [NgOnInit (servingEnv data); Respond 0; Timeout]
             (newComponent {[ "gmiPieChart" ]}) in
  exists cfg, ("gmiPieChart", cfg) ∈ chartTable /\ pieConfig data = cfg (clinicData w).
Proof.
  intros data w.
  apply (@charts_show_current_snapshot EvalRuntime.runtime w
           ltac:(subst w; unfold run; cbn [fold_left]; repeat constructor)
           {| chart_id := 0; canvas := "gmiPieChart"; config := pieConfig data |}).
  by_evaluation.
Defined.

(** ** More on the overlays *)

(** The scale chart has three dividers, each a vertical line from the top to
    the bottom of the chart area, at the ticks 54, 180 and 400: the
    boundaries after the first, the third and the fifth segment. *)
Theorem scale_dividers_at_ticks `{JsRuntime} (chart : ChartObject) (c : Ctx) :
  let area := chartArea chart in
  let drawing := emitted (afterDraw_scale chart) c in
  strokes drawing
  = (fun t => [ {| px := labelX t (labels drawing); py := area_top area |};
                {| px := labelX t (labels drawing); py := area_bottom area |} ])
      <$> ["54"; "180"; "400"].
Proof.
  cbv zeta. rewrite afterDraw_scale_emitted. reflexivity.
Qed.

Lemma stacked_labelY d chart c :
  let ls := labels (emitted (afterDraw_stacked d chart) c) in
  let bottom := area_bottom (chartArea chart) in
  (labelY "2%" ls = bottom - belowHeight d chart / lit 2 /\
   labelY "82%" ls = bottom - belowHeight d chart - inRangeHeight d chart / lit 2 /\
   labelY "15%" ls
   = bottom - belowHeight d chart - inRangeHeight d chart
       - aboveHeight d chart * decimal 3 10 /\
   labelY "1%" ls = area_top (chartArea chart) + lit 15)%num.
Proof.
  cbv zeta. rewrite afterDraw_stacked_emitted. repeat split.
Qed.

Ltac finite_arith :=
  repeat first
    [ rewrite !div_lit_finite by discriminate
    | progress cbn [num_mul num_sub num_add num_neg decimal] ].

Lemma Qc_half_pos : (0 <= / Q2Qc (inject_Z 2))%Qc.
Proof. by_evaluation. Qed.
Lemma Qc_one_minus_half :
  (1 - / Q2Qc (inject_Z 2) = / Q2Qc (inject_Z 2))%Qc.
Proof. by_evaluation. Qed.
Lemma Qc_hundredth_pos : (0 <= / Q2Qc (inject_Z 100))%Qc.
Proof. by_evaluation. Qed.
Lemma Qc_three_tenths_pos : (0 <= Q2Qc (3 # 10))%Qc.
Proof. by_evaluation. Qed.

Lemma height_nonneg (v h : Qc) :
  (0 <= v)%Qc -> (0 <= h)%Qc -> (0 <= v / Q2Qc (inject_Z 100) * h)%Qc.
Proof.
  intros Hv Hh. apply Qcmult_nonneg_nonneg; [|exact Hh].
  apply Qcmult_nonneg_nonneg; [exact Hv | apply Qc_hundredth_pos].
Qed.

(** For percentages and a height that are not negative, the labels of the
    three data segments are anchored in the order of the segments: "2%" at
    the bottom, "82%" above it, "15%" above that (y grows downwards). *)
Theorem stacked_labels_bottom_to_top (d : ClinicData) (chart : ChartObject)
    (c : Ctx) (b i a h bottom : Qc) :
  belowRange (timeInRange d) = Fin b ->
  inRange (timeInRange d) = Fin i ->
  aboveRange (timeInRange d) = Fin a ->
  area_height (chartArea chart) = Fin h ->
  area_bottom (chartArea chart) = Fin bottom ->
  (0 <= b)%Qc -> (0 <= i)%Qc -> (0 <= a)%Qc -> (0 <= h)%Qc ->
  let ls := labels (emitted (afterDraw_stacked d chart) c) in
  num_le (labelY "15%" ls) (labelY "82%" ls) /\
  num_le (labelY "82%" ls) (labelY "2%" ls) /\
  num_le (labelY "2%" ls) (area_bottom (chartArea chart)).
Proof.
  intros Hb Hi Ha Hh Hbot Pb Pi Pa Ph ls. subst ls.
  destruct (stacked_labelY d chart c) as (-> & -> & -> & _).
  unfold belowHeight, inRangeHeight, aboveHeight, stackedTotal.
  rewrite Hb, Hi, Ha, Hh, Hbot. finite_arith.
  pose proof (height_nonneg b h Pb Ph) as HB.
  pose proof (height_nonneg i h Pi Ph) as HI.
  pose proof (height_nonneg a h Pa Ph) as HA.
  set (hB := (b / Q2Qc (inject_Z 100) * h)%Qc) in *.
  set (hI := (i / Q2Qc (inject_Z 100) * h)%Qc) in *.
  set (hA := (a / Q2Qc (inject_Z 100) * h)%Qc) in *.
  clearbody hB hI hA.
  cbn [num_le]. unfold Qcdiv. repeat split; apply Qcle_minus_iff.
  - match goal with |- (0 <= ?e)%Qc =>
      replace e with (hI * (1 - / Q2Qc (inject_Z 2)) + hA * Q2Qc (3 # 10))%Qc
        by ring
    end.
    rewrite Qc_one_minus_half.
    apply Qcplus_nonneg_nonneg; apply Qcmult_nonneg_nonneg;
      auto using Qc_half_pos, Qc_three_tenths_pos.
  - match goal with |- (0 <= ?e)%Qc =>
      replace e
        with (hB * (1 - / Q2Qc (inject_Z 2)) + hI * / Q2Qc (inject_Z 2))%Qc
        by ring
    end.
    rewrite Qc_one_minus_half.
    apply Qcplus_nonneg_nonneg; apply Qcmult_nonneg_nonneg;
      auto using Qc_half_pos.
  - match goal with |- (0 <= ?e)%Qc =>
      replace e with (hB * / Q2Qc (inject_Z 2))%Qc by ring
    end.
    apply Qcmult_nonneg_nonneg; auto using Qc_half_pos.
Qed.

Lemma stacked_labels_bottom_to_top_witness :
  let chart := chartOf [] in
  let ls := labels (emitted (afterDraw_stacked sampleData chart) freshCtx) in
  num_le (labelY "15%" ls) (labelY "82%" ls) /\
  num_le (labelY "82%" ls) (labelY "2%" ls) /\
  num_le (labelY "2%" ls) (area_bottom (chartArea chart)).
Proof.
  intros chart ls.
  apply (stacked_labels_bottom_to_top sampleData chart freshCtx
           (Q2Qc 2) (Q2Qc 82) (Q2Qc 15) (Q2Qc 200) (Q2Qc 210));
    try reflexivity; by_evaluation.
Defined.

Lemma div_lit_lit a z :
  z <> 0%Z ->
  (lit a / lit z)%num = Fin (Q2Qc (inject_Z a) / Q2Qc (inject_Z z)).
Proof. apply div_lit_finite. Qed.

(** When the three percentages are zero (the default snapshot), the labels
    of the three data segments all fall on the bottom line of the chart
    area. *)
Theorem stacked_labels_all_zero (d : ClinicData) (chart : ChartObject) (c : Ctx) :
  timeInRange d = {| inRange := lit 0; aboveRange := lit 0; belowRange := lit 0 |} ->
  isFinite (area_height (chartArea chart)) = true ->
  isFinite (area_bottom (chartArea chart)) = true ->
  let ls := labels (emitted (afterDraw_stacked d chart) c) in
  labelY "2%" ls = area_bottom (chartArea chart) /\
  labelY "82%" ls = area_bottom (chartArea chart) /\
  labelY "15%" ls = area_bottom (chartArea chart).
Proof.
  intros Hd Hh Hb ls. subst ls.
  apply isFinite_Fin in Hh as (h & Hh), Hb as (bottom & Hb).
  destruct (stacked_labelY d chart c) as (-> & -> & -> & _).
  unfold belowHeight, inRangeHeight, aboveHeight, stackedTotal.
  rewrite Hd, Hh, Hb. cbn [belowRange inRange aboveRange].
  rewrite !div_lit_lit by discriminate. finite_arith.
  change (Q2Qc (inject_Z 0)) with 0%Qc. unfold Qcdiv.
  repeat split; f_equal; ring.
Qed.

Lemma stacked_labels_all_zero_witness :
  let d := @getDefaultData EvalRuntime.runtime (lit 60) failingEnv in
  let ls := labels (emitted (afterDraw_stacked d (chartOf [])) freshCtx) in
  labelY "2%" ls = lit 210 /\ labelY "82%" ls = lit 210 /\
  labelY "15%" ls = lit 210.
Proof.
  intros d ls.
  apply (stacked_labels_all_zero d (chartOf []) freshCtx); reflexivity.
Defined.

(** ** More on the copy under src/app *)

(** In the copy under src/app the pie overlay never reads the data: the
    texts are the constants "72%", "23%" and "5%", at anchors fixed relative
    to the centre, for every chart; two charts of one size get the same
    labels whatever their datasets. *)
Theorem SrcApp_pie_labels_constant `{JsRuntime} (chart chart' : ChartObject)
    (c c' : Ctx) :
  let cx := (width chart / lit 2)%num in
  let cy := (height chart / lit 2)%num in
  textAnchors (labels (emitted (SrcApp.afterDraw_pie chart) c))
  = [ ("72%", {| px := (cx - lit 80)%num; py := (cy - lit 20 - lit 5)%num |});
      ("23%", {| px := (cx + lit 80)%num; py := (cy + lit 10 - lit 5)%num |});
      ("5%", {| px := (cx + lit 20)%num; py := (cy + lit 80 - lit 5)%num |}) ] /\
  (width chart' = width chart -> height chart' = height chart ->
   labels (emitted (SrcApp.afterDraw_pie chart') c')
   = labels (emitted (SrcApp.afterDraw_pie chart) c)).
Proof.
  cbv zeta. rewrite !SrcApp_afterDraw_pie_emitted. cbv zeta.
  split; [reflexivity|]. intros -> ->. reflexivity.
Qed.

Lemma SrcApp_pie_labels_constant_witness :
  text <$> labels (emitted
                     (@SrcApp.afterDraw_pie EvalRuntime.runtime
                        (chartOf (datasets (pieConfig (clinicDataOf 2 82 15 10 20 70)))))
                     freshCtx)
  = text <$> labels (emitted
                       (@SrcApp.afterDraw_pie EvalRuntime.runtime
                          (chartOf (datasets (pieConfig sampleData))))
                       freshCtx).
Proof.
  exact (f_equal (fmap text)
           (proj2 (@SrcApp_pie_labels_constant EvalRuntime.runtime
                     (chartOf (datasets (pieConfig sampleData)))
                     (chartOf (datasets (pieConfig (clinicDataOf 2 82 15 10 20 70))))
                     freshCtx freshCtx) eq_refl eq_refl)).
Defined.

(** ** Capturing the dashboard *)

(** A capture downloads at most one image: the dashboard when html2canvas
    delivers a blob, else the fallback canvas when the fallback delivers
    one, else nothing; the file is named after the clock. *)
Theorem captureScreenshot_downloads `{JsRuntime} (d : ClinicData) (page : Page) :
  downloads (captureScreenshot d page)
  = if primarySucceeds page then [(downloadName (clock page), DashboardImage)]
    else if fallbackSucceeds page then
      [(downloadName (clock page),
        FallbackImage (lit 800) (lit 600) "#ffffff"
          (drawn (fallbackText d page (set_fillStyle "#ffffff" freshCtx))))]
    else [].
Proof.
  unfold captureScreenshot, fallbackScreenshot, primarySucceeds, fallbackSucceeds.
  destruct page as [dash h2c throws ctx blob iw ih now locale]. cbn.
  destruct dash; cbn;
    [destruct h2c as [[| |[|[|]]]|]; cbn|];
    destruct throws, ctx, blob; reflexivity.
Qed.

(** The user is alerted only when the primary method produced no image and
    the fallback threw.  A fallback that gets no 2D context, or no blob from
    toBlob, ends without a download and without an alert. *)
Theorem captureScreenshot_alerts `{JsRuntime} (d : ClinicData) (page : Page) :
  alerts (captureScreenshot d page)
  = (if negb (primarySucceeds page) && fallbackThrows page
     then ["Screenshot capture is not supported in this browser"] else []) /\
  (primarySucceeds page = false -> fallbackThrows page = false ->
   canvasContext page && fallbackBlob page = false ->
   downloads (captureScreenshot d page) = [] /\
   alerts (captureScreenshot d page) = []).
Proof.
  unfold captureScreenshot, fallbackScreenshot, primarySucceeds.
  destruct page as [dash h2c throws ctx blob iw ih now locale]. cbn.
  split.
  - destruct dash; cbn;
      [destruct h2c as [[| |[|[|]]]|]; cbn|];
      destruct throws, ctx, blob; reflexivity.
  - intros Hprimary -> Hfallback.
    destruct dash; cbn in *;
      [destruct h2c as [[| |[|[|]]]|]; cbn in *; try discriminate|];
      destruct ctx, blob; try discriminate; split; reflexivity.
Qed.

Lemma captureScreenshot_alerts_witness :
  let page :=
    {| dashboardElement := true; html2canvas := None; fallbackThrows := false;
       canvasContext := false; fallbackBlob := true; innerWidth := lit 1280;
       innerHeight := lit 720;
       clock := {| year := 2024; month := 1; day := 6; hours := 15;
                   minutes := 0; seconds := 7; milliseconds := 42 |};
       clockLocale := "1/6/2024, 3:00:07 PM" |} in
  downloads (@captureScreenshot EvalRuntime.runtime sampleData page) = [] /\
  alerts (@captureScreenshot EvalRuntime.runtime sampleData page) = [].
Proof.
  intros page.
  apply (proj2 (@captureScreenshot_alerts EvalRuntime.runtime sampleData page));
    reflexivity.
Defined.

(** ** More on the name of the exported image *)

Lemma downloadName_timestamp (now : DateTime) :
  downloadName now
  = "clinic-outcomes-" +:+ replaceColonDot (isoSeconds now) +:+ ".png".
Proof.
  unfold downloadName. rewrite toISOString_split, replaceColonDot_append.
  rewrite slice_drop_suffix; [reflexivity|].
  rewrite !replaceColonDot_append, replaceColonDot_digits.
  rewrite !length_append, length_digits. reflexivity.
Qed.

(** The name does not depend on the milliseconds: two captures within one
    second are given the same file name. *)
Theorem downloadName_ignores_milliseconds (now : DateTime) (ms : Z) :
  downloadName (withMilliseconds ms now) = downloadName now.
Proof. rewrite !downloadName_timestamp. reflexivity. Qed.

Lemma chars_append a b :
  list_ascii_of_string (a +:+ b)
  = list_ascii_of_string a ++ list_ascii_of_string b.
Proof.
  induction a as [|x a IH]; [reflexivity|].
  rewrite append_cons. cbn. now rewrite IH.
Qed.

Lemma chars_length s : length (list_ascii_of_string s) = String.length s.
Proof. induction s as [|x s IH]; [reflexivity | cbn; now rewrite IH]. Qed.

Lemma chars_inj a b : list_ascii_of_string a = list_ascii_of_string b -> a = b.
Proof.
  intros E. rewrite <- (string_of_list_ascii_of_string a),
    <- (string_of_list_ascii_of_string b). now rewrite E.
Qed.

Lemma digit_inj n m : digit n = digit m -> (n mod 10 = m mod 10)%Z.
Proof.
  unfold digit. intros E.
  assert (0 <= n mod 10 < 10)%Z by (apply Z.mod_pos_bound; lia).
  assert (0 <= m mod 10 < 10)%Z by (apply Z.mod_pos_bound; lia).
  apply (f_equal nat_of_ascii) in E.
  rewrite !nat_ascii_embedding in E by lia. lia.
Qed.

Lemma digits_inj w n m :
  (0 <= n < 10 ^ Z.of_nat w)%Z -> (0 <= m < 10 ^ Z.of_nat w)%Z ->
  digits w n = digits w m -> n = m.
Proof.
  revert n m. induction w as [|w IH]; intros n m Hn Hm E.
  - cbn in Hn, Hm. lia.
  - cbn [digits] in E. apply (f_equal list_ascii_of_string) in E.
    rewrite !chars_append in E. cbn in E.
    apply app_inj_tail in E as (E & Ed).
    apply chars_inj in E. apply digit_inj in Ed.
    rewrite Nat2Z.inj_succ, Z.pow_succ_r in Hn, Hm by lia.
    assert (n / 10 = m / 10)%Z as Hq.
    { apply IH; [| |exact E].
      - split; [apply Z.div_pos; lia | apply Z.div_lt_upper_bound; lia].
      - split; [apply Z.div_pos; lia | apply Z.div_lt_upper_bound; lia]. }
    rewrite (Z.div_mod n 10), (Z.div_mod m 10) by lia. lia.
Qed.

Lemma String_inj c1 c2 s1 s2 :
  String c1 s1 = String c2 s2 -> c1 = c2 /\ s1 = s2.
Proof. intros E. now injection E. Qed.

Lemma length_yearString y :
  String.length (yearString y) = if decide (0 <= y <= 9999)%Z then 4%nat else 7%nat.
Proof.
  unfold yearString. repeat case_decide;
    rewrite ?length_append, ?length_digits; reflexivity.
Qed.

Lemma yearString_inj y1 y2 :
  (-271821 <= y1 <= 275760)%Z -> (-271821 <= y2 <= 275760)%Z ->
  yearString y1 = yearString y2 -> y1 = y2.
Proof.
  intros H1 H2 E.
  pose proof (f_equal String.length E) as Elen.
  rewrite !length_yearString in Elen.
  unfold yearString in E.
  destruct (decide (0 <= y1 <= 9999)%Z), (decide (0 <= y2 <= 9999)%Z);
    try discriminate.
  - apply (digits_inj 4); [cbn; lia | cbn; lia | exact E].
  - destruct (decide (y1 < 0)%Z), (decide (y2 < 0)%Z);
      rewrite !append_cons in E; apply String_inj in E as (Ec & E);
      try discriminate;
      apply (digits_inj 6) in E; cbn; lia.
Qed.

(** For two dates JavaScript can hold, equal names mean equal dates up to
    the second: captures taken in different seconds never share a file
    name. *)
Theorem downloadName_determines_second (d1 d2 : DateTime) :
  validDate d1 -> validDate d2 ->
  downloadName d1 = downloadName d2 ->
  year d1 = year d2 /\ month d1 = month d2 /\ day d1 = day d2 /\
  hours d1 = hours d2 /\ minutes d1 = minutes d2 /\ seconds d1 = seconds d2.
Proof.
  intros V1 V2 E. unfold validDate in V1, V2.
  rewrite !downloadName_timestamp in E.
  apply (inj (String.app _)) in E.
  apply (f_equal list_ascii_of_string) in E.
  rewrite !chars_append in E. apply app_inv_tail in E.
  unfold isoSeconds in E.
  rewrite !replaceColonDot_append, !replaceColonDot_digits,
    !replaceColonDot_yearString in E.
  rewrite !chars_append in E.
  apply app_inj_2 in E as (Ey & E);
    [|rewrite !length_app, !chars_length, !length_digits; reflexivity].
  apply chars_inj, yearString_inj in Ey; [|lia|lia].
  apply app_inv_head in E.
  apply app_inj_1 in E as (Emonth & E);
    [|rewrite !chars_length, !length_digits; reflexivity].
  apply app_inv_head in E.
  apply app_inj_1 in E as (Eday & E);
    [|rewrite !chars_length, !length_digits; reflexivity].
  apply app_inv_head in E.
  apply app_inj_1 in E as (Ehours & E);
    [|rewrite !chars_length, !length_digits; reflexivity].
  apply app_inv_head in E.
  apply app_inj_1 in E as (Eminutes & E);
    [|rewrite !chars_length, !length_digits; reflexivity].
  apply app_inv_head in E.
  apply chars_inj in Emonth, Eday, Ehours, Eminutes, E.
  apply (digits_inj 2) in Emonth, Eday, Ehours, Eminutes, E.
  all: cbn; lia.
Qed.

Lemma downloadName_determines_second_witness :
  let d := {| year := 2024; month := 1; day := 6; hours := 15; minutes := 0;
              seconds := 7; milliseconds := 42 |} in
  seconds d = seconds (withMilliseconds 900 d).
Proof.
  intros d.
  apply (downloadName_determines_second d (withMilliseconds 900 d));
    [unfold validDate; cbn; lia | unfold validDate; cbn; lia | reflexivity].
Defined.

(** In the copy under src/app a canvas of html2canvas that yields no blob
    ends the capture with nothing at all: no download, no fallback, no
    message.  In every other case the capture downloads the dashboard when
    html2canvas delivers a blob and else what the fallback delivers. *)
Theorem SrcApp_captureScreenshot_downloads (page : Page) :
  (html2canvas page = Some (Html2Canvas_resolves (ToBlob_calls false)) ->
   SrcAppCapture.captureScreenshot page = []) /\
  (html2canvas page <> Some (Html2Canvas_resolves (ToBlob_calls false)) ->
   downloads (SrcAppCapture.captureScreenshot page)
   = match html2canvas page with
     | Some (Html2Canvas_resolves (ToBlob_calls true)) =>
         [(downloadName (clock page), DashboardImage)]
     | _ =>
         if fallbackSucceeds page then
           [(downloadName (clock page),
             FallbackImage (innerWidth page) (innerHeight page) "#ffffff"
               (drawn (SrcAppCapture.fallbackText page
                         (set_fillStyle "#ffffff" freshCtx))))]
         else []
     end).
Proof.
  unfold SrcAppCapture.captureScreenshot, SrcAppCapture.fallbackScreenshot,
    fallbackSucceeds.
  destruct page as [dash h2c throws ctx blob iw ih now locale]. cbn.
  split.
  - intros ->. reflexivity.
  - intros Hne. destruct h2c as [[| |[|[|]]]|]; cbn;
      try congruence; destruct throws, ctx, blob; reflexivity.
Qed.

Lemma SrcApp_captureScreenshot_downloads_witness :
  SrcAppCapture.captureScreenshot
    {| dashboardElement := true;
       html2canvas := Some (Html2Canvas_resolves (ToBlob_calls false));
       fallbackThrows := false; canvasContext := true; fallbackBlob := true;
       innerWidth := lit 1280; innerHeight := lit 720;
       clock := {| year := 2024; month := 1; day := 6; hours := 15;
                   minutes := 0; seconds := 7; milliseconds := 42 |};
       clockLocale := "1/6/2024, 3:00:07 PM" |}
  = [].
Proof.
  apply (proj1 (SrcApp_captureScreenshot_downloads _)). reflexivity.
Defined.
